(** * scripts/download-python.js: fetching and unpacking a standalone Python

    A shallow embedding of the provisioning script.  The script is a
    straight-line asynchronous program over three pieces of the outside
    world: the filesystem, the HTTPS server(s) it talks to, and the two
    output streams.  The embedding threads an explicit [state] (filesystem
    and event trace) through a small monad whose results are a normal
    return, a thrown [Error], or [process.exit]; the redirect recursion of
    [download] is driven by fuel, and running out of fuel stands for a
    promise that never settles.

    What the script calls but does not define ([path], [fs] and [https]
    of the platform, the packages [tar] and [adm-zip]) is embedded as
    functions that do to the state what the calls do, as far as the state
    can tell: the filesystem of the model has files and directories, and
    neither permissions nor links. *)

From stdpp Require Import gmap strings list pretty.
From Stdlib Require Import Strings.Ascii Strings.Byte.

Open Scope string_scope.
Open Scope list_scope.

(** ** Strings *)

Definition nl : string := String (Ascii.ascii_of_nat 10) EmptyString.
Definition dquote : string := String (Ascii.ascii_of_nat 34) EmptyString.

(** [s.includes(t)] *)
Definition includes (s t : string) : Prop :=
  ∃ pre post, s = pre +:+ t +:+ post.

(** [s.startsWith(t)] *)
Fixpoint startsWith (s t : string) : bool :=
  match t, s with
  | EmptyString, _ => true
  | String c t', String d s' => if decide (c = d) then startsWith s' t' else false
  | String _ _, EmptyString => false
  end.

(** ** JavaScript values that reach the script *)

(** The download descriptor stored in the table: [{ url, type }]. *)
Record descriptor := Descriptor { url : string; type : string }.

(** What the property read [PLATFORMS[key]] can produce: nothing, one of
    the table's descriptors, or a member inherited from [Object.prototype]
    (a built-in method, or the prototype object itself for [__proto__]).
    An inherited member is an object or a function and has no property
    [url] or [type]. *)
Inductive jsval :=
| JUndefined
| JConfig (d : descriptor)
| JInherited (name : string).

(** [!!v]: objects and functions are truthy. *)
Definition truthy (v : jsval) : bool :=
  match v with
  | JUndefined => false
  | JConfig _ | JInherited _ => true
  end.

(** A value that is a string or [undefined] (a destructured field, a
    response header) is an [option string]. *)
Definition get_url (v : jsval) : option string :=
  match v with JConfig d => Some (url d) | _ => None end.
Definition get_type (v : jsval) : option string :=
  match v with JConfig d => Some (type d) | _ => None end.

(** [`${v}`] *)
Definition to_string (v : option string) : string :=
  match v with
  | Some s => s
  | None => "undefined"
  end.

(** [v === 'lit'] *)
Definition strict_eq_str (v : option string) (lit : string) : bool :=
  match v with
  | Some s => if decide (s = lit) then true else false
  | None => false
  end.

(** ** The platform table *)

Definition PYTHON_VERSION : string := "3.11.9+20240726".
Definition RELEASE_TAG : string := "20240726".
Definition PYTHON_OFFICIAL_VERSION : string := "3.11.9".

(** An object literal keeps its keys in insertion order, which
    [Object.keys] exposes, so the table is an association list. *)
Definition PLATFORMS : list (string * descriptor) :=
  [ ("darwin-arm64",
     {| url := "https://github.com/indygreg/python-build-standalone/releases/download/" +:+ RELEASE_TAG +:+ "/cpython-" +:+ PYTHON_VERSION +:+ "-aarch64-apple-darwin-install_only.tar.gz";
        type := "tar.gz" |});
    ("darwin-x64",
     {| url := "https://github.com/indygreg/python-build-standalone/releases/download/" +:+ RELEASE_TAG +:+ "/cpython-" +:+ PYTHON_VERSION +:+ "-x86_64-apple-darwin-install_only.tar.gz";
        type := "tar.gz" |});
    ("linux-x64",
     {| url := "https://github.com/indygreg/python-build-standalone/releases/download/" +:+ RELEASE_TAG +:+ "/cpython-" +:+ PYTHON_VERSION +:+ "-x86_64-unknown-linux-gnu-install_only.tar.gz";
        type := "tar.gz" |});
    ("linux-arm64",
     {| url := "https://github.com/indygreg/python-build-standalone/releases/download/" +:+ RELEASE_TAG +:+ "/cpython-" +:+ PYTHON_VERSION +:+ "-aarch64-unknown-linux-gnu-install_only.tar.gz";
        type := "tar.gz" |});
    ("win32-x64",
     {| url := "https://github.com/indygreg/python-build-standalone/releases/download/" +:+ RELEASE_TAG +:+ "/cpython-" +:+ PYTHON_VERSION +:+ "-x86_64-pc-windows-msvc-shared-install_only.tar.gz";
        type := "tar.gz" |});
    ("win32-arm64",
     {| url := "https://www.python.org/ftp/python/" +:+ PYTHON_OFFICIAL_VERSION +:+ "/python-" +:+ PYTHON_OFFICIAL_VERSION +:+ "-embed-arm64.zip";
        type := "zip" |}) ].

(** The table's own entry for a key, if any. *)
Fixpoint own_property (tbl : list (string * descriptor)) (key : string)
  : option descriptor :=
  match tbl with
  | [] => None
  | (k, d) :: rest => if decide (k = key) then Some d else own_property rest key
  end.

(** [Object.keys(tbl)] *)
Definition Object_keys (tbl : list (string * descriptor)) : list string :=
  map fst tbl.

(** The table is written as an object literal, so it inherits from
    [Object.prototype]; these are the names a property read finds there
    when the object has no own property of that name. *)
Definition Object_prototype_names : list string :=
  [ "constructor"; "__defineGetter__"; "__defineSetter__"; "hasOwnProperty";
    "__lookupGetter__"; "__lookupSetter__"; "isPrototypeOf";
    "propertyIsEnumerable"; "toString"; "valueOf"; "__proto__";
    "toLocaleString" ].

(** [PLATFORMS[key]]: own property first, then the prototype. *)
Definition PLATFORMS_get (key : string) : jsval :=
  match own_property PLATFORMS key with
  | Some d => JConfig d
  | None =>
      if decide (key ∈ Object_prototype_names) then JInherited key
      else JUndefined
  end.

(** [getPlatformKey()], with [process.platform] and [process.arch] given. *)
Definition getPlatformKey (platform arch : string) : string :=
  platform +:+ "-" +:+ arch.

(** ** Paths *)

(** A filesystem path is the list of its components below the filesystem
    root. *)
Abbreviation path := (list string).

(** [path.basename(s)] on a string (POSIX flavour; the table's URLs hold no
    backslash or drive letter, so the Windows flavour agrees on them):
    trailing separators are dropped, then the part after the last
    separator is returned. *)
Definition is_sep (c : ascii) : bool := if decide (c = "/"%char) then true else false.

Fixpoint drop_seps (cs : list ascii) : list ascii :=
  match cs with
  | c :: cs' => if is_sep c then drop_seps cs' else cs
  | [] => []
  end.

Fixpoint take_segment (cs : list ascii) : list ascii :=
  match cs with
  | c :: cs' => if is_sep c then [] else c :: take_segment cs'
  | [] => []
  end.

Definition basename (s : string) : string :=
  String.string_of_list_ascii
    (rev (take_segment (drop_seps (rev (String.list_ascii_of_string s))))).

(** The text of a path as the script prints it. *)
Definition path_text (p : path) : string := "/" +:+ String.concat "/" p.

(** All non-empty prefixes of a path, shortest first: the directories a
    recursive [mkdir] walks through. *)
Fixpoint prefixes (p : path) : list path :=
  match p with
  | [] => []
  | c :: q => [c] :: map (cons c) (prefixes q)
  end.

(** The directory a path lies in. *)
Definition parent (p : path) : path := removelast p.

(** [s.split('/')] *)
Fixpoint split_sep (cs : list ascii) : list (list ascii) :=
  match cs with
  | [] => [[]]
  | c :: cs' =>
      if is_sep c then [] :: split_sep cs'
      else match split_sep cs' with
           | seg :: segs => (c :: seg) :: segs
           | [] => [[c]]
           end
  end.

Definition segments (s : string) : list string :=
  map String.string_of_list_ascii (split_sep (String.list_ascii_of_string s)).

(** Normalizing a path walks its segments from left to right: an empty
    segment and [.] stay where they are, [..] goes up (and stays at the
    root), any other segment goes down. *)
Definition path_step (dir : path) (segment : string) : path :=
  if bool_decide (segment = "" ∨ segment = ".") then dir
  else if bool_decide (segment = "..") then parent dir
  else dir ++ [segment].

(** [path.join(dir, s)] for an absolute, normalized [dir]. *)
Definition path_join (dir : path) (s : string) : path :=
  foldl path_step dir (segments s).

(** ** The world: filesystem, server, output *)

(** A filesystem maps the paths that exist to what is there.  The root
    [[]] always exists and is a directory.  Permissions, quotas and other
    causes of I/O failure are outside the model: an operation fails only
    for the shape of the tree. *)
Inductive node :=
| Dir
| File (content : list byte).

Abbreviation filesystem := (gmap path node).

Definition node_at (t : filesystem) (p : path) : option node :=
  match p with
  | [] => Some Dir
  | _ => t !! p
  end.

Definition is_file (t : filesystem) (p : path) : bool :=
  match node_at t p with Some (File _) => true | _ => false end.

(** What [parseInt] yields: an integer or [NaN]. *)
Inductive jsnumber :=
| NaN
| Num (z : Z).

(** What the script does to the outside, in the order it does it. *)
Inductive event :=
| ConsoleLog (line : string)        (* console.log, to standard output *)
| ConsoleError (line : string)      (* console.error, to standard error *)
| Progress (downloadedBytes : N) (totalBytes : jsnumber)
    (* process.stdout.write(`\rDownloading: ${percent}%`), where percent
       is the one-decimal rendering of the floating-point value
       downloadedBytes / totalBytes * 100, kept here by its operands;
       a NaN total renders as the text NaN *)
| HttpsGet (target : option string). (* https.get(target, ...) *)

Record state := State { fs : filesystem; trace : list event }.

(** An HTTP response as the script reads it: status, the two headers it
    looks at, the chunks of the body in arrival order, and the error that
    cut the body short, if any. *)
Record response := Response {
  statusCode : N;
  location : option string;
  content_length : option string;
  body : list (list byte);
  aborted : option string
}.

(** What one [https.get] comes to: an error (thrown by the call or emitted
    by the request), or a response.  Requests that neither fail nor answer
    are not modelled.  The target of a redirect without [Location] is
    [undefined], and [net None] says what [https.get(undefined, ...)]
    comes to; where the platform makes that call without handing it the
    callback, an answer to it is never seen, and the request is one of
    those that the model leaves out. *)
Inductive get_result :=
| GetError (msg : string)
| GetResponse (r : response).

Abbreviation server := (option string → get_result).

(** The errors the script can raise or meet, each with its [message]. *)
Inductive error :=
| PathArgNotString                    (* TypeError of path.basename *)
| DownloadFailed (status : N)
| UnsupportedArchiveType (t : option string)
| RequestError (msg : string)
| FsError (code : string) (p : path)
| ArchiveError (msg : string).

Definition message (e : error) : string :=
  match e with
  | PathArgNotString =>
      "The " +:+ dquote +:+ "path" +:+ dquote
      +:+ " argument must be of type string. Received undefined"
  | DownloadFailed status => "Download failed with status " +:+ pretty status
  | UnsupportedArchiveType t => "Unsupported archive type: " +:+ to_string t
  | RequestError msg => msg
  | FsError code p => code +:+ ": " +:+ path_text p
  | ArchiveError msg => msg
  end.

(** ** The monad of the script *)

Inductive outcome (A : Type) :=
| Ret (a : A)          (* the promise resolves / the call returns *)
| Throw (e : error)    (* the promise rejects / the call throws *)
| Exit (code : Z).     (* process.exit(code) *)
Arguments Ret {A} a.
Arguments Throw {A} e.
Arguments Exit {A} code.

(** [None] stands for a promise that never settles. *)
Definition M (A : Type) : Type := state → option (outcome A * state).

Definition ret {A} (a : A) : M A := λ st, Some (Ret a, st).
Definition throw {A} (e : error) : M A := λ st, Some (Throw e, st).
Definition process_exit {A} (code : Z) : M A := λ st, Some (Exit code, st).

Definition bind {A B} (m : M A) (k : A → M B) : M B := λ st,
  match m st with
  | None => None
  | Some (Ret a, st') => k a st'
  | Some (Throw e, st') => Some (Throw e, st')
  | Some (Exit c, st') => Some (Exit c, st')
  end.

Notation "'do' x <- m ; k" := (bind m (λ x, k))
  (at level 10, x name, m at level 100, k at level 200).
Notation "m ;; k" := (bind m (λ _, k))
  (at level 100, k at level 200, right associativity).

Definition emit (e : event) : M unit := λ st,
  Some (Ret (), {| fs := fs st; trace := trace st ++ [e] |}).

Definition console_log (line : string) : M unit := emit (ConsoleLog line).
Definition console_error (line : string) : M unit := emit (ConsoleError line).

(** ** Filesystem calls *)

(** [fs.existsSync(p)] *)
Definition fs_existsSync (p : path) : M bool := λ st,
  Some (Ret (bool_decide (is_Some (node_at (fs st) p))), st).

(** [fs.promises.mkdir(p, { recursive: true })]: creates [p] and every
    missing directory above it; it is no error that [p] is there already,
    unless a file stands at [p] or above it. *)
Definition make_dirs (ps : list path) (t : filesystem) : filesystem :=
  foldr (λ q acc, <[q := Dir]> acc) t ps.

Definition fs_mkdir_recursive (p : path) : M unit := λ st,
  if existsb (is_file (fs st)) (prefixes p)
  then Some (Throw (FsError (if is_file (fs st) p then "EEXIST" else "ENOTDIR") p), st)
  else Some (Ret (), {| fs := make_dirs (prefixes p) (fs st); trace := trace st |}).

(** [fs.promises.unlink(p)] *)
Definition fs_unlink (p : path) : M unit := λ st,
  match node_at (fs st) p with
  | Some (File _) => Some (Ret (), {| fs := delete p (fs st); trace := trace st |})
  | Some Dir => Some (Throw (FsError "EPERM" p), st)
  | None => Some (Throw (FsError "ENOENT" p), st)
  end.

(** [fs.createWriteStream(dest)] opening its file: created empty, or
    truncated. *)
Definition open_write (dest : path) (t : filesystem) : error + filesystem :=
  match node_at t dest with
  | Some Dir => inl (FsError "EISDIR" dest)
  | _ =>
      match node_at t (parent dest) with
      | Some Dir => inr (<[dest := File []]> t)
      | Some (File _) => inl (FsError "ENOTDIR" dest)
      | None => inl (FsError "ENOENT" dest)
      end
  end.

(** The write stream appending one chunk. *)
Definition append_chunk (chunk : list byte) (n : node) : node :=
  match n with
  | File content => File (content ++ chunk)
  | Dir => Dir
  end.

Definition create_write_stream (dest : path) : M unit := λ st,
  match open_write dest (fs st) with
  | inl e => Some (Throw e, st)
  | inr t => Some (Ret (), {| fs := t; trace := trace st |})
  end.

Definition write_chunk (dest : path) (chunk : list byte) : M unit := λ st,
  Some (Ret (), {| fs := alter (append_chunk chunk) dest (fs st); trace := trace st |}).

(** ** [parseInt(h, 10)] on a header value *)

Definition is_space (c : ascii) : bool :=
  bool_decide (Ascii.nat_of_ascii c ∈ [9; 10; 11; 12; 13; 32; 160]%nat).

Fixpoint skip_spaces (cs : list ascii) : list ascii :=
  match cs with
  | c :: cs' => if is_space c then skip_spaces cs' else cs
  | [] => []
  end.

Definition digit_value (c : ascii) : option Z :=
  let n := Ascii.nat_of_ascii c in
  if (48 <=? n)%nat && (n <=? 57)%nat then Some (Z.of_nat (n - 48)) else None.

(** The value of the longest prefix of digits; [None] when there is none. *)
Fixpoint read_digits (acc : option Z) (cs : list ascii) : option Z :=
  match cs with
  | c :: cs' =>
      match digit_value c with
      | Some d => read_digits (Some (10 * default 0%Z acc + d)%Z) cs'
      | None => acc
      end
  | [] => acc
  end.

Definition parseInt10 (h : option string) : jsnumber :=
  let cs := skip_spaces (String.list_ascii_of_string (to_string h)) in
  let '(sign, ds) :=
    match cs with
    | "-"%char :: r => ((-1)%Z, r)
    | "+"%char :: r => (1%Z, r)
    | _ => (1%Z, cs)
    end in
  match read_digits None ds with
  | Some z => Num (sign * z)
  | None => NaN
  end.

(** ** [download] *)

(** The 'data' listener and the pipeline into the file, chunk by chunk. *)
Fixpoint receive (dest : path) (totalBytes : jsnumber) (downloadedBytes : N)
    (chunks : list (list byte)) : M unit :=
  match chunks with
  | [] => ret ()
  | chunk :: rest =>
      let downloadedBytes := (downloadedBytes + N.of_nat (length chunk))%N in
      emit (Progress downloadedBytes totalBytes) ;;
      write_chunk dest chunk ;;
      receive dest totalBytes downloadedBytes rest
  end.

Definition is_redirect (status : N) : bool :=
  (status =? 302)%N || (status =? 301)%N.

Fixpoint download (fuel : nat) (net : server) (url : option string) (dest : path)
  : M unit :=
  match fuel with
  | O => λ _, None
  | S fuel' =>
      emit (HttpsGet url) ;;
      match net url with
      | GetError msg => throw (RequestError msg)
      | GetResponse response =>
          if is_redirect (statusCode response) then
            download fuel' net (location response) dest
          else if negb (statusCode response =? 200)%N then
            throw (DownloadFailed (statusCode response))
          else
            create_write_stream dest ;;
            let totalBytes := parseInt10 (content_length response) in
            receive dest totalBytes 0 (body response) ;;
            match aborted response with
            | Some msg => throw (RequestError msg)
            | None => console_log (nl +:+ "Download completed!")
            end
      end
  end.

(** ** The archive libraries *)

(** One member of an archive: the parts of its path as the archive has it
    ([path.split('/')], so the path [python/lib/] of a directory member
    has the parts [python], [lib] and an empty one), and its bytes
    ([None] for a directory member).  Members of other kinds (symbolic
    and hard links, devices) would leave nodes that [node] does not have:
    the model covers archives of files and directories. *)
Record entry := Entry { entry_path : list string; entry_body : option (list byte) }.

(** What reading an archive file gives: the members that can be read, in
    archive order, and the error met after them when the file is damaged. *)
Record decoded := Decoded { entries : list entry; damage : option string }.

(** What a member is on disk once it is unpacked. *)
Definition node_of (e : entry) : node :=
  match entry_body e with
  | Some content => File content
  | None => Dir
  end.

(** The members are unpacked one after the other, and the first error
    ends it; the damage, if any, is reported when the reader gets to it. *)
Fixpoint unpack_all (unpack_entry : entry → M unit) (es : list entry) : M unit :=
  match es with
  | [] => ret ()
  | e :: es' => unpack_entry e ;; unpack_all unpack_entry es'
  end.

Definition unpack (unpack_entry : entry → M unit) (d : decoded) : M unit :=
  unpack_all unpack_entry (entries d) ;;
  match damage d with
  | Some msg => throw (ArchiveError msg)
  | None => ret ()
  end.

(** *** [tar.extract({ file, cwd, strip })]

    The options the script leaves out keep their defaults: without
    [strict] a member that cannot be unpacked is passed over with a
    warning that nobody listens to, and the call resolves. *)

(** Where a member goes below [cwd], if anywhere.  Its path loses [strip]
    leading parts; a member with fewer parts, or with a [..] part left,
    is passed over.  Resolving what is left against [cwd] drops the empty
    parts and [.]; a member that comes to [cwd] itself leaves nothing the
    model sees. *)
Definition landing (strip : nat) (e : entry) : option path :=
  if (length (entry_path e) <? strip)%nat then None else
  let parts := drop strip (entry_path e) in
  if bool_decide (".." ∈ parts) then None else
  let rest := filter (λ part, part ≠ "" ∧ part ≠ ".") parts in
  if bool_decide (rest = []) then None else Some rest.

(** Nothing lies below [p]: [fs.rmdir(p)] succeeds. *)
Definition is_empty_dir (t : filesystem) (p : path) : bool :=
  bool_decide (map_Forall (λ q _, ¬ (p `prefix_of` q ∧ q ≠ p)) t).

(** Unpacking one member.  The directories between [cwd] and the target
    are made first; a file in their way makes the member fail.  A
    directory member replaces a file at its target.  A file member
    replaces a file, and a directory when that is empty; a directory that
    is not empty makes the member fail.  A member that fails is passed
    over. *)
Definition tar_unpack_entry (cwd : path) (strip : nat) (e : entry) : M unit := λ st,
  match landing strip e with
  | None => Some (Ret (), st)
  | Some rest =>
      let target := cwd ++ rest in
      let dirs := map (app cwd) (prefixes (parent rest)) in
      if existsb (is_file (fs st)) dirs then Some (Ret (), st) else
      let t := make_dirs dirs (fs st) in
      match node_of e, node_at t target with
      | File _, Some Dir =>
          if is_empty_dir t target
          then Some (Ret (), {| fs := <[target := node_of e]> t; trace := trace st |})
          else Some (Ret (), {| fs := t; trace := trace st |})
      | _, _ => Some (Ret (), {| fs := <[target := node_of e]> t; trace := trace st |})
      end
  end.

(** *** [new AdmZip(file).extractAllTo(cwd, true)] *)

(** The name of a member is normalized as an absolute path before it is
    put below [cwd], so no [..] leads out of [cwd]. *)
Definition canonical (parts : list string) : path := foldl path_step [] parts.

(** Where a member goes below [cwd]; nowhere when its name comes to [cwd]
    itself. *)
Definition zip_landing (e : entry) : option path :=
  let rest := canonical (entry_path e) in
  if bool_decide (rest = []) then None else Some rest.

(** The library's [makeDir]: it walks down from the root and makes what is
    missing; a file on the way is an error. *)
Definition zip_makeDir (folder : path) : M unit := λ st,
  if existsb (is_file (fs st)) (prefixes folder)
  then Some (Throw (ArchiveError ("There is a file in the way: " +:+ path_text folder)),
             st)
  else Some (Ret (), {| fs := make_dirs (prefixes folder) (fs st); trace := trace st |}).

(** The library's [writeFileTo] with [overwrite] set: a directory at the
    target is left alone and nothing is written; otherwise the folder of
    the target is made if it is missing, and the file is opened for
    writing. *)
Definition zip_writeFileTo (target : path) (content : list byte) : M unit := λ st,
  match node_at (fs st) target with
  | Some Dir => Some (Ret (), st)
  | _ =>
      ((if bool_decide (is_Some (node_at (fs st) (parent target))) then ret ()
        else zip_makeDir (parent target)) ;;
       λ st1, match open_write target (fs st1) with
              | inl e => Some (Throw e, st1)
              | inr _ => Some (Ret (), {| fs := <[target := File content]> (fs st1);
                                          trace := trace st1 |})
              end) st
  end.

Definition zip_unpack_entry (cwd : path) (e : entry) : M unit :=
  let entryName := cwd ++ canonical (entry_path e) in
  match entry_body e with
  | None => zip_makeDir entryName
  | Some content => zip_writeFileTo entryName content
  end.

Definition read_file (p : path) : M (list byte) := λ st,
  match node_at (fs st) p with
  | Some (File content) => Some (Ret content, st)
  | Some Dir => Some (Throw (FsError "EISDIR" p), st)
  | None => Some (Throw (FsError "ENOENT" p), st)
  end.

Definition require_dir (p : path) : M unit := λ st,
  match node_at (fs st) p with
  | Some Dir => Some (Ret (), st)
  | Some (File _) => Some (Throw (FsError "ENOTDIR" p), st)
  | None => Some (Throw (FsError "ENOENT" p), st)
  end.

(** ** The script *)

Section Script.

(** [path.join(__dirname, '..')]: the directory that holds [scripts/]
    and [resources/]. *)
Variable project_root : path.

(** The archive readers of the libraries [tar] (gunzip, then untar) and
    [adm-zip], as functions of the bytes of the archive file. *)
Variable read_targz : list byte → decoded.
Variable read_zip : list byte → decoded.

(** [tar.extract({ file, cwd, strip })]: [cwd] must be a directory. *)
Definition tar_extract (file cwd : path) (strip : nat) : M unit :=
  do content <- read_file file;
  require_dir cwd ;;
  unpack (tar_unpack_entry cwd strip) (read_targz content).

(** [new AdmZip(file).extractAllTo(cwd, true)]: members keep their whole
    path, and existing files are overwritten. *)
Definition zip_extractAllTo (file cwd : path) : M unit :=
  do content <- read_file file;
  unpack (zip_unpack_entry cwd) (read_zip content).

Definition extractTarGz (tarPath destDir : path) : M unit :=
  console_log ("Extracting tar.gz to " +:+ path_text destDir +:+ "...") ;;
  fs_mkdir_recursive destDir ;;
  tar_extract tarPath destDir 1 ;;
  console_log "Extraction completed!".

Definition extractZip (zipPath destDir : path) : M unit :=
  console_log ("Extracting zip to " +:+ path_text destDir +:+ "...") ;;
  fs_mkdir_recursive destDir ;;
  zip_extractAllTo zipPath destDir ;;
  console_log "Extraction completed!".

(** [path.join(__dirname, '..', 'resources', 'python', platformKey)].
    Every key that gets as far as the filesystem is a key of the table,
    a single path component. *)
Definition resourcesDir (platformKey : string) : path :=
  project_root ++ ["resources"; "python"; platformKey].

Definition pythonDir (platformKey : string) : path :=
  resourcesDir platformKey ++ ["python"].

(** [path.basename(url)], which throws on a value that is no string. *)
Definition path_basename (v : option string) : M string :=
  match v with
  | Some s => ret (basename s)
  | None => throw PathArgNotString
  end.

(** The dispatch on the archive type (the [if]/[else if]/[else] of
    [downloadAndSetup]). *)
Definition extract_by_type (type : option string) (archivePath destDir : path)
  : M unit :=
  if strict_eq_str type "tar.gz" then extractTarGz archivePath destDir
  else if strict_eq_str type "zip" then extractZip archivePath destDir
  else throw (UnsupportedArchiveType type).

Definition downloadAndSetup (fuel : nat) (net : server) (platformKey : string)
  : M unit :=
  let platformConfig := PLATFORMS_get platformKey in
  (if negb (truthy platformConfig) then
     console_error ("Unsupported platform: " +:+ platformKey) ;;
     console_error ("Supported platforms: "
                    +:+ String.concat ", " (Object_keys PLATFORMS)) ;;
     process_exit 1
   else ret ()) ;;
  let url := get_url platformConfig in
  let type := get_type platformConfig in
  do filename <- path_basename url;
  let archivePath := path_join (resourcesDir platformKey) filename in
  do present <- fs_existsSync (pythonDir platformKey);
  if present then
    console_log ("Python already exists at " +:+ path_text (pythonDir platformKey))
  else
    console_log ("Downloading Python for " +:+ platformKey +:+ "...") ;;
    console_log ("URL: " +:+ to_string url) ;;
    console_log ("Type: " +:+ to_string type) ;;
    fs_mkdir_recursive (resourcesDir platformKey) ;;
    download fuel net url archivePath ;;
    extract_by_type type archivePath (pythonDir platformKey) ;;
    fs_unlink archivePath ;;
    console_log ("Cleaned up " +:+ to_string type +:+ " file") ;;
    console_log (nl +:+ "✅ Python setup completed at: "
                 +:+ path_text (pythonDir platformKey)).

(** The top level: [argv2] is [process.argv[2]] ([None] when absent),
    [platform] and [arch] are [process.platform] and [process.arch].
    The result is the exit code of the process and the final state. *)
Definition targetPlatform (argv2 : option string) (platform arch : string)
  : string :=
  match argv2 with
  | Some s => if decide (s = "") then getPlatformKey platform arch else s
  | None => getPlatformKey platform arch
  end.

(** [.catch(handler)] *)
Definition catch {A} (m : M A) (handler : error → M A) : M A := λ st,
  match m st with
  | Some (Throw e, st') => handler e st'
  | r => r
  end.

(** The exit code a finished run leaves: 0 when nothing called
    [process.exit], 1 for an error nobody caught. *)
Definition exit_code {A} (o : outcome A) : Z :=
  match o with
  | Ret _ => 0
  | Exit code => code
  | Throw _ => 1
  end.

Definition main (fuel : nat) (net : server) (argv2 : option string)
    (platform arch : string) (st : state) : option (Z * state) :=
  let targetPlatform := targetPlatform argv2 platform arch in
  '(o, st') ← (console_log ("Setting up Python for platform: " +:+ targetPlatform) ;;
               catch (downloadAndSetup fuel net targetPlatform)
                 (λ error,
                    console_error ("❌ Setup failed: " +:+ message error) ;;
                    process_exit 1)) st;
  Some (exit_code o, st').

(** ** Names for the stages of a run *)

(** The two lines a run prints when the interpreter is already there. *)
Definition skip_lines (key : string) : list event :=
  [ ConsoleLog ("Setting up Python for platform: " +:+ key);
    ConsoleLog ("Python already exists at " +:+ path_text (pythonDir key)) ].

(** The state in which [download] is called: the resources directory has
    been made, four lines have been printed. *)
Definition download_begins (key : string) (d : descriptor) (st : state) : state :=
  {| fs := make_dirs (prefixes (resourcesDir key)) (fs st);
     trace := trace st ++
       [ ConsoleLog ("Setting up Python for platform: " +:+ key);
         ConsoleLog ("Downloading Python for " +:+ key +:+ "...");
         ConsoleLog ("URL: " +:+ url d);
         ConsoleLog ("Type: " +:+ type d) ] |}.

(** [path.join(resourcesDir, path.basename(url))] *)
Definition archivePath (key : string) (d : descriptor) : path :=
  path_join (resourcesDir key) (basename (url d)).

(** What [main] does after the directory check found nothing. *)
Definition pipeline (fuel : nat) (net : server) (key : string) (d : descriptor)
  : M unit :=
  download fuel net (Some (url d)) (archivePath key d) ;;
  extract_by_type (Some (type d)) (archivePath key d) (pythonDir key) ;;
  fs_unlink (archivePath key d) ;;
  console_log ("Cleaned up " +:+ type d +:+ " file") ;;
  console_log (nl +:+ "✅ Python setup completed at: " +:+ path_text (pythonDir key)).

Definition on_failure (error : error) : M unit :=
  console_error ("❌ Setup failed: " +:+ message error) ;; process_exit 1.

(** One invocation of the script: its fuel, the server it meets, its
    command line and platform. *)
Record invocation := Invocation {
  inv_fuel : nat;
  inv_net : server;
  inv_argv2 : option string;
  inv_platform : string;
  inv_arch : string
}.

(** Running the script once per invocation, each on the filesystem the
    one before left; the result is the list of exit codes. *)
Fixpoint invocations (runs : list invocation) (st : state) : option (list Z * state) :=
  match runs with
  | [] => Some ([], st)
  | r :: rest =>
      '(code, st1) ← main (inv_fuel r) (inv_net r) (inv_argv2 r)
                          (inv_platform r) (inv_arch r) st;
      '(codes, st2) ← invocations rest st1;
      Some (code :: codes, st2)
  end.

End Script.

(** ** Vocabulary of the statements *)

(** The targets of the requests in a trace, in order. *)
Definition requests (tr : list event) : list (option string) :=
  omap (λ e, match e with HttpsGet u => Some u | _ => None end) tr.

(** The state after one more event. *)
Definition logged (e : event) (st : state) : state :=
  {| fs := fs st; trace := trace st ++ [e] |}.

(** [redirects net u k u']: starting at [u], the server answers [k] times
    in a row with a 301 or 302, and the last [Location] is [u']. *)
Inductive redirects (net : server) : option string → nat → option string → Prop :=
| redirects_here u : redirects net u 0 u
| redirects_step u r k u' :
    net u = GetResponse r →
    is_redirect (statusCode r) = true →
    redirects net (location r) k u' →
    redirects net u (S k) u'.

(** The cumulative byte counts the 'data' listener sees. *)
Fixpoint running_totals (downloadedBytes : N) (chunks : list (list byte)) : list N :=
  match chunks with
  | [] => []
  | chunk :: rest =>
      let downloadedBytes := (downloadedBytes + N.of_nat (length chunk))%N in
      downloadedBytes :: running_totals downloadedBytes rest
  end.

(** [download] stops at [u]: the request fails, or it is answered with a
    status other than 301 and 302. *)
Definition ends (net : server) (u : option string) : Prop :=
  match net u with
  | GetError _ => True
  | GetResponse r => is_redirect (statusCode r) = false
  end.

(** The node [n] at [cwd ++ x] is the work of member [e]: the member
    itself, or one of the directories made on the way to it. *)
Definition accounts (land : entry → option path) (e : entry) (x : path) (n : node)
  : Prop :=
  ∃ rest, land e = Some rest
          ∧ ((n = Dir ∧ x `prefix_of` rest ∧ x ≠ rest) ∨ (x = rest ∧ n = node_of e)).

(** The members of an archive fit together as a tree: nothing lands
    below a file member, and no directory member lands on one. *)
Definition coherent (land : entry → option path) (es : list entry) : bool :=
  forallb (λ e1,
    forallb (λ e2,
      match entry_body e1, land e1, land e2 with
      | Some _, Some r1, Some r2 =>
          if decide (r1 `prefix_of` r2)
          then bool_decide (r1 = r2) && bool_decide (is_Some (entry_body e2))
          else true
      | _, _, _ => true
      end) es) es.


(** Nothing in [t] is in the way of member [e] at [cwd ++ rest]: no file
    where a directory has to be, and at the target no directory for a
    file member, no file for a directory member. *)
Definition clear (cwd : path) (t : filesystem) (e : entry) (rest : path) : Prop :=
  (∀ x content, x ≠ [] → x `prefix_of` rest → x ≠ rest →
                t !! (cwd ++ x) ≠ Some (File content))
  ∧ match entry_body e with
    | Some _ => t !! (cwd ++ rest) ≠ Some Dir
    | None => ∀ content, t !! (cwd ++ rest) ≠ Some (File content)
    end.
(** The outcomes of the library calls and of the steps around them: none
    of them leaves the process, none complains about the archive type. *)
Definition benign {A} (out : outcome A) : Prop :=
  (∀ code, out ≠ Exit code) ∧ (∀ t, out ≠ Throw (UnsupportedArchiveType t)).

(** Only paths strictly below [cwd] differ between [t] and [t']. *)
Definition confined_below (cwd : path) (t t' : filesystem) : Prop :=
  ∀ q, (∀ x, x ≠ [] → q ≠ cwd ++ x) → t' !! q = t !! q.

(** How unpacking member [e] below [cwd] can change the filesystem: only
    below [cwd]; what is new there is the work of [e]; and what was there
    stays unless [e] lands on it (a directory stays when [e] is a
    directory too). *)
Definition unpacked (cwd : path) (land : entry → option path) (e : entry)
    (t t' : filesystem) : Prop :=
  confined_below cwd t t'
  ∧ (∀ x n, x ≠ [] → t' !! (cwd ++ x) = Some n →
            t !! (cwd ++ x) = Some n ∨ accounts land e x n)
  ∧ (∀ x n, x ≠ [] → t !! (cwd ++ x) = Some n →
            land e ≠ Some x ∨ (n = Dir ∧ entry_body e = None) →
            t' !! (cwd ++ x) = Some n).

(** What the two libraries have in common when they unpack one member,
    started where the filesystem is [ready]: the step ends, prints
    nothing, changes the filesystem as [unpacked] says, and puts the
    member in its place when nothing is in its way. *)
Definition unpacks (cwd : path) (land : entry → option path)
    (ready : filesystem → Prop) (unpack_entry : entry → M unit) : Prop :=
  (∀ e rest, land e = Some rest → rest ≠ [])
  ∧ ∀ e st, ready (fs st) →
      ∃ out st',
        unpack_entry e st = Some (out, st')
        ∧ trace st' = trace st
        ∧ ready (fs st')
        ∧ benign out
        ∧ unpacked cwd land e (fs st) (fs st')
        ∧ (∀ rest, land e = Some rest → clear cwd (fs st) e rest →
             out = Ret () ∧ fs st' !! (cwd ++ rest) = Some (node_of e))
        ∧ (land e = None → out = Ret ()).

(** What a recursive [mkdir] followed by unpacking below the new
    directory does to the rest of the filesystem. *)
Definition outside (destDir q : path) : Prop :=
  (q ∉ prefixes destDir) ∧ (∀ x, x ≠ [] → q ≠ destDir ++ x).

(** The checks on one descriptor of the table, as a boolean. *)
Definition recognized (d : descriptor) : bool :=
  startsWith (url d) "https://"
  && negb (bool_decide (url d = ""))
  && (bool_decide (type d = "tar.gz") || bool_decide (type d = "zip"))
  && negb (bool_decide (basename (url d) = "python")).

(** A segment that [path.join] appends as it is. *)
Definition plain (segment : string) : bool :=
  negb (bool_decide (segment = "" ∨ segment = "."))
  && negb (bool_decide (segment = "..")).

(** The targets [download] asks for, one after the other, with [fuel]
    requests at most: the URL, then the [Location] of each 301 or 302. *)
Fixpoint hops (fuel : nat) (net : server) (url : option string)
  : list (option string) :=
  match fuel with
  | O => []
  | S fuel' =>
      url :: match net url with
             | GetResponse r =>
                 if is_redirect (statusCode r) then hops fuel' net (location r)
                 else []
             | GetError _ => []
             end
  end.

(** The write stream can open [dest]: it lies in a directory and is no
    directory itself. *)
Definition writable (t : filesystem) (dest : path) : Prop :=
  node_at t (parent dest) = Some Dir ∧ node_at t dest ≠ Some Dir.

(** Is the event a line on standard error, a line on standard output? *)
Definition is_stderr (e : event) : bool :=
  match e with ConsoleError _ => true | _ => false end.

Definition is_log (e : event) : bool :=
  match e with ConsoleLog _ => true | _ => false end.

(** Every event of [tr] passes [ok]. *)
Definition only (ok : event → bool) (tr : list event) : Prop :=
  Forall (λ e, ok e = true) tr.

(** Nothing in [tr] went to standard error. *)
Definition quiet (tr : list event) : Prop := only (λ e, negb (is_stderr e)) tr.

(** [m] settles from every state, adds to the trace only [console.log]
    lines, and changes the filesystem only at paths in [P]. *)
Definition tame (P : path → Prop) {A} (m : M A) : Prop :=
  ∀ st, ∃ out st',
    m st = Some (out, st')
    ∧ (∃ tr, trace st' = trace st ++ tr ∧ only is_log tr)
    ∧ (∀ q, ¬ P q → fs st' !! q = fs st !! q).

(** A step that may not settle, and may make requests and report
    progress, but writes nothing to standard error. *)
Definition mild (P : path → Prop) {A} (m : M A) : Prop :=
  ∀ st out st',
    m st = Some (out, st') →
    (∃ tr, trace st' = trace st ++ tr ∧ quiet tr)
    ∧ (∀ q, ¬ P q → fs st' !! q = fs st !! q).

(** [q] lies on the branch of [p]: above it, at it, or below it. *)
Definition near (p q : path) : Prop := q `prefix_of` p ∨ p `prefix_of` q.

(** Where an extractor may write: the directories down to [destDir], and
    below [destDir]. *)
Definition extraction_area (destDir q : path) : Prop :=
  q ∈ prefixes destDir ∨ ∃ x, x ≠ [] ∧ q = destDir ++ x.

(** ** Sample data *)

Module Sample.

(** A four-member archive with one top-level directory, and a toy reader:
    the two bytes [2a 2b] stand for the whole archive, the single byte
    [2a] for the same archive cut off after its second member, and
    anything else is unreadable. *)
Definition members : list entry :=
  [ {| entry_path := ["python"; ""]; entry_body := None |};
    {| entry_path := ["python"; "bin"; "python3"]; entry_body := Some [x01; x02] |};
    {| entry_path := ["python"; "lib"; ""]; entry_body := None |};
    {| entry_path := ["python"; "lib"; "os.py"]; entry_body := Some [x03] |} ].

Definition reader (bytes : list byte) : decoded :=
  match bytes with
  | [x2a; x2b] => {| entries := members; damage := None |}
  | [x2a] => {| entries := take 2 members; damage := Some "unexpected end of file" |}
  | _ => {| entries := []; damage := Some "unrecognized archive format" |}
  end.

Definition root : path := ["app"].

Definition linux_x64 : descriptor :=
  {| url := "https://github.com/indygreg/python-build-standalone/releases/download/20240726/cpython-3.11.9+20240726-x86_64-unknown-linux-gnu-install_only.tar.gz";
     type := "tar.gz" |}.

Definition mirror : string := "https://objects.example/python.tar.gz".

Definition answer (status : N) (loc len : option string) (chunks : list (list byte))
  : get_result :=
  GetResponse {| statusCode := status; location := loc; content_length := len;
                 body := chunks; aborted := None |}.

(** The release server redirects to a mirror; the mirror serves [chunks]. *)
Definition redirecting (len : option string) (chunks : list (list byte)) : server :=
  λ target,
    if decide (target = Some (url linux_x64)) then answer 302 (Some mirror) None []
    else if decide (target = Some mirror) then answer 200 None len chunks
    else answer 404 None None [].

(** A server that redirects every request to itself. *)
Definition looping : server := λ target, answer 301 target None [].

Definition empty : state := {| fs := ∅; trace := [] |}.

(** A disk on which the extraction directory of [key] is already there. *)
Definition installed (key : string) : state :=
  {| fs := {[ pythonDir root key := Dir ]}; trace := [] |}.

(** The states a run for [linux-x64] goes through on an empty disk when
    the mirror serves [chunks]: after the download, and after the
    extraction. *)
Definition run_download (chunks : list (list byte)) : option (outcome unit * state) :=
  download 2 (redirecting (Some "2") chunks) (Some (url linux_x64))
    (archivePath root "linux-x64" linux_x64)
    (download_begins root "linux-x64" linux_x64 empty).

Definition after_run {A} (r : option (outcome A * state)) : state :=
  match r with
  | Some (_, st) => st
  | None => empty
  end.

Definition run_extract (st : state) : option (outcome unit * state) :=
  extract_by_type reader reader (Some (type linux_x64))
    (archivePath root "linux-x64" linux_x64) (pythonDir root "linux-x64") st.

Definition downloaded_whole : state :=
  Eval vm_compute in after_run (run_download [[x2a]; [x2b]]).
Definition extracted_whole : state :=
  Eval vm_compute in after_run (run_extract downloaded_whole).
Definition downloaded_cut : state :=
  Eval vm_compute in after_run (run_download [[x2a]]).
Definition extracted_cut : state :=
  Eval vm_compute in after_run (run_extract downloaded_cut).

(** A disk that holds the tarball only, and what [extractTarGz] makes of
    it. *)
Definition tarball_only : state :=
  {| fs := {[ ["dl"; "a.tgz"] := File [x2a; x2b] ]}; trace := [] |}.
Definition untarred : state :=
  Eval vm_compute in
    after_run (extractTarGz reader ["dl"; "a.tgz"] ["out"; "python"] tarball_only).

End Sample.

(** More servers, disks and runs. *)
Module Demo.

(** The mirror cuts the body short after one chunk. *)
Definition cutting : server := λ target,
  if decide (target = Some (url Sample.linux_x64))
  then Sample.answer 302 (Some Sample.mirror) None []
  else GetResponse {| statusCode := 200; location := None;
                      content_length := Some "2"; body := [[x2a]];
                      aborted := Some "aborted" |}.

(** No host can be reached. *)
Definition unreachable : server := λ _, GetError "getaddrinfo ENOTFOUND".


Definition serving : server := Sample.redirecting (Some "2") [[x2a]; [x2b]].

Definition release : response :=
  {| statusCode := 302; location := Some Sample.mirror; content_length := None;
     body := []; aborted := None |}.

Definition payload : response :=
  {| statusCode := 200; location := None; content_length := Some "2";
     body := [[x2a]; [x2b]]; aborted := None |}.

Definition fetched : state :=
  Eval vm_compute in
    Sample.after_run (download 2 serving (Some (url Sample.linux_x64)) ["a.tgz"]
                        Sample.empty).

(** A whole run for [linux-x64] on an empty disk, and where it ends. *)
Definition finished : state :=
  Eval vm_compute in
    match main Sample.root Sample.reader Sample.reader 2 serving
            (Some "linux-x64") "linux" "x64" Sample.empty with
    | Some (_, st) => st
    | None => Sample.empty
    end.

(** The state in which the download was refused. *)
Definition refused : state :=
  Eval vm_compute in
    Sample.after_run
      (download 2 unreachable (Some (url Sample.linux_x64))
         (archivePath Sample.root "linux-x64" Sample.linux_x64)
         (download_begins Sample.root "linux-x64" Sample.linux_x64 Sample.empty)).

(** A disk on which a file stands where the resources directory should
    go. *)
Definition blocked : state :=
  {| fs := {[ ["app"; "resources"] := File [] ]}; trace := [] |}.

(** Archives whose members do not fit together: a file member where the
    directory of an earlier member is, a member below an earlier file
    member, a file member on an empty directory; and a member whose path
    leads upwards. *)
Definition file_on_directory : list entry :=
  [ {| entry_path := ["top"; "a"; "x"]; entry_body := Some [x01] |};
    {| entry_path := ["top"; "a"]; entry_body := Some [x02] |} ].

Definition member_below_file : list entry :=
  [ {| entry_path := ["top"; "a"]; entry_body := Some [x02] |};
    {| entry_path := ["top"; "a"; "x"]; entry_body := Some [x01] |} ].

Definition file_on_empty_directory : list entry :=
  [ {| entry_path := ["top"; "a"; ""]; entry_body := None |};
    {| entry_path := ["top"; "a"]; entry_body := Some [x02] |} ].

Definition climbing : entry :=
  {| entry_path := ["top"; ".."; ".."; "etc"; "passwd"]; entry_body := Some [x01] |}.

(** A disk with an empty directory to unpack into. *)
Definition out_only : state := {| fs := {[ ["out"] := Dir ]}; trace := [] |}.

(** A disk that holds the zip only, and what [extractZip] makes of it. *)
Definition zip_only : state :=
  {| fs := {[ ["dl"; "a.zip"] := File [x2a; x2b] ]}; trace := [] |}.
Definition unzipped : state :=
  Eval vm_compute in
    Sample.after_run (extractZip Sample.reader ["dl"; "a.zip"] ["out"] zip_only).

End Demo.

(** ** Small checks of the definitions *)

(** Closing an equation between closed terms by evaluation (the kernel
    evaluates the left-hand side on its virtual machine). *)
Local Ltac by_evaluation :=
  lazymatch goal with |- ?lhs = ?rhs => exact (eq_refl rhs <: lhs = rhs) end.

Example basename_of_url :
  basename "https://www.python.org/ftp/python/3.11.9/python-3.11.9-embed-arm64.zip"
  = "python-3.11.9-embed-arm64.zip".
Proof. reflexivity. Qed.

Example basename_trailing_separators : basename "a/b//" = "b".
Proof. reflexivity. Qed.

Example prefixes_of_three :
  prefixes ["a"; "b"; "c"] = [["a"]; ["a"; "b"]; ["a"; "b"; "c"]].
Proof. reflexivity. Qed.

Example path_join_samples :
  path_join ["app"; "resources"] "a.zip" = ["app"; "resources"; "a.zip"]
  ∧ path_join ["app"; "resources"] ".." = ["app"]
  ∧ path_join ["app"; "resources"] "." = ["app"; "resources"]
  ∧ path_join ["app"; "resources"] "" = ["app"; "resources"]
  ∧ path_join ["app"] "x/../y//z" = ["app"; "y"; "z"].
Proof. by repeat split. Qed.

(** Where [tar.extract] with [strip: 1] puts a member: the directory
    member [python/] comes to the destination itself; a leading [./]
    counts as the part that is taken off; a member of one part and a
    member with [..] are passed over. *)
Example landing_samples :
  landing 1 {| entry_path := ["python"; "bin"; "python3"]; entry_body := Some [] |}
  = Some ["bin"; "python3"]
  ∧ landing 1 {| entry_path := ["python"; ""]; entry_body := None |} = None
  ∧ landing 1 {| entry_path := ["."; "python"; "bin"]; entry_body := Some [] |}
    = Some ["python"; "bin"]
  ∧ landing 1 {| entry_path := ["python"]; entry_body := Some [] |} = None
  ∧ landing 1 Demo.climbing = None.
Proof. by repeat split. Qed.

(** [extractAllTo] keeps every part of the path, and a path that leads
    upwards is cut back to the destination. *)
Example zip_landing_samples :
  zip_landing {| entry_path := ["python"; "bin"; "python3"]; entry_body := Some [] |}
  = Some ["python"; "bin"; "python3"]
  ∧ zip_landing {| entry_path := ["python"; ""]; entry_body := None |}
    = Some ["python"]
  ∧ zip_landing Demo.climbing = Some ["etc"; "passwd"].
Proof. by repeat split. Qed.

(** A file member that meets a directory with something in it: [tar]
    passes it over and goes on, and so does [extractAllTo]. *)
Example file_on_directory_is_passed_over :
  coherent (landing 1) Demo.file_on_directory = false
  ∧ unpack_all (tar_unpack_entry ["out"] 1) Demo.file_on_directory Demo.out_only
    = Some (Ret (), {| fs := {[ ["out"] := Dir; ["out"; "a"] := Dir;
                                ["out"; "a"; "x"] := File [x01] ]};
                       trace := [] |})
  ∧ unpack_all (zip_unpack_entry ["out"]) Demo.file_on_directory Demo.out_only
    = Some (Ret (), {| fs := {[ ["out"] := Dir; ["out"; "top"] := Dir;
                                ["out"; "top"; "a"] := Dir;
                                ["out"; "top"; "a"; "x"] := File [x01] ]};
                       trace := [] |}).
Proof. repeat split; by_evaluation. Qed.

(** A member below a file member: [tar] passes it over; [extractAllTo]
    cannot open it and throws. *)
Example member_below_file_differs :
  unpack_all (tar_unpack_entry ["out"] 1) Demo.member_below_file Demo.out_only
  = Some (Ret (), {| fs := {[ ["out"] := Dir; ["out"; "a"] := File [x02] ]};
                     trace := [] |})
  ∧ unpack_all (zip_unpack_entry ["out"]) Demo.member_below_file Demo.out_only
    = Some (Throw (FsError "ENOTDIR" ["out"; "top"; "a"; "x"]),
            {| fs := {[ ["out"] := Dir; ["out"; "top"] := Dir;
                        ["out"; "top"; "a"] := File [x02] ]};
               trace := [] |}).
Proof. repeat split; by_evaluation. Qed.

(** A file member that meets an empty directory: [tar] removes the
    directory and writes the file; [extractAllTo] leaves the directory. *)
Example file_on_empty_directory_differs :
  unpack_all (tar_unpack_entry ["out"] 1) Demo.file_on_empty_directory Demo.out_only
  = Some (Ret (), {| fs := {[ ["out"] := Dir; ["out"; "a"] := File [x02] ]};
                     trace := [] |})
  ∧ unpack_all (zip_unpack_entry ["out"]) Demo.file_on_empty_directory Demo.out_only
    = Some (Ret (), {| fs := {[ ["out"] := Dir; ["out"; "top"] := Dir;
                                ["out"; "top"; "a"] := Dir ]};
                       trace := [] |}).
Proof. repeat split; by_evaluation. Qed.

(** A member whose path leads upwards: [tar] passes it over;
    [extractAllTo] writes it inside the destination. *)
Example climbing_member_stays_inside :
  unpack_all (tar_unpack_entry ["out"] 1) [Demo.climbing] Demo.out_only
  = Some (Ret (), Demo.out_only)
  ∧ unpack_all (zip_unpack_entry ["out"]) [Demo.climbing] Demo.out_only
    = Some (Ret (), {| fs := {[ ["out"] := Dir; ["out"; "etc"] := Dir;
                                ["out"; "etc"; "passwd"] := File [x01] ]};
                       trace := [] |}).
Proof. repeat split; by_evaluation. Qed.

(** The sample archive, unpacked by each of the two functions: the tarball
    without its top-level directory, the zip with it. *)
Example sample_tarball_unpacked :
  extractTarGz Sample.reader ["dl"; "a.tgz"] ["out"; "python"] Sample.tarball_only
  = Some (Ret (), Sample.untarred)
  ∧ fs Sample.untarred
    = {[ ["dl"; "a.tgz"] := File [x2a; x2b];
         ["out"] := Dir;
         ["out"; "python"] := Dir;
         ["out"; "python"; "bin"] := Dir;
         ["out"; "python"; "bin"; "python3"] := File [x01; x02];
         ["out"; "python"; "lib"] := Dir;
         ["out"; "python"; "lib"; "os.py"] := File [x03] ]}
  ∧ trace Sample.untarred
    = [ ConsoleLog "Extracting tar.gz to /out/python...";
        ConsoleLog "Extraction completed!" ].
Proof. repeat split; by_evaluation. Qed.

Example sample_zip_unpacked :
  extractZip Sample.reader ["dl"; "a.zip"] ["out"] Demo.zip_only
  = Some (Ret (), Demo.unzipped)
  ∧ fs Demo.unzipped
    = {[ ["dl"; "a.zip"] := File [x2a; x2b];
         ["out"] := Dir;
         ["out"; "python"] := Dir;
         ["out"; "python"; "bin"] := Dir;
         ["out"; "python"; "bin"; "python3"] := File [x01; x02];
         ["out"; "python"; "lib"] := Dir;
         ["out"; "python"; "lib"; "os.py"] := File [x03] ]}.
Proof. repeat split; by_evaluation. Qed.

Example PLATFORMS_get_table_key :
  get_type (PLATFORMS_get "win32-arm64") = Some "zip".
Proof. reflexivity. Qed.

Example PLATFORMS_get_unknown_key : PLATFORMS_get "plan9-x64" = JUndefined.
Proof. reflexivity. Qed.

Example PLATFORMS_get_inherited_name :
  PLATFORMS_get "toString" = JInherited "toString".
Proof. reflexivity. Qed.

Example Object_keys_PLATFORMS :
  String.concat ", " (Object_keys PLATFORMS)
  = "darwin-arm64, darwin-x64, linux-x64, linux-arm64, win32-x64, win32-arm64".
Proof. reflexivity. Qed.

Example parseInt10_samples :
  parseInt10 (Some "34087") = Num 34087
  ∧ parseInt10 (Some " 12ab") = Num 12
  ∧ parseInt10 (Some "") = NaN
  ∧ parseInt10 None = NaN.
Proof. by repeat split. Qed.

Example targetPlatform_default :
  targetPlatform None "darwin" "arm64" = "darwin-arm64"
  ∧ targetPlatform (Some "") "darwin" "arm64" = "darwin-arm64"
  ∧ targetPlatform (Some "linux-x64") "darwin" "arm64" = "linux-x64".
Proof. by repeat split. Qed.

(** ** Facts about [download] *)

Lemma is_redirect_spec status :
  is_redirect status = true ↔ status = 301%N ∨ status = 302%N.
Proof.
  unfold is_redirect. rewrite orb_true_iff, !N.eqb_eq. tauto.
Qed.

Lemma download_S fuel net url dest st :
  download (S fuel) net url dest st =
  match net url with
  | GetError msg => Some (Throw (RequestError msg), logged (HttpsGet url) st)
  | GetResponse response =>
      if is_redirect (statusCode response) then
        download fuel net (location response) dest (logged (HttpsGet url) st)
      else if negb (statusCode response =? 200)%N then
        Some (Throw (DownloadFailed (statusCode response)), logged (HttpsGet url) st)
      else
        (create_write_stream dest ;;
         receive dest (parseInt10 (content_length response)) 0 (body response) ;;
         match aborted response with
         | Some msg => throw (RequestError msg)
         | None => console_log (nl +:+ "Download completed!")
         end) (logged (HttpsGet url) st)
  end.
Proof.
  cbn [download]. unfold bind at 1. cbn [emit].
  destruct (net url) as [msg|response]; [reflexivity|].
  destruct (is_redirect _); [reflexivity|].
  destruct (negb _); reflexivity.
Qed.

(** A settled download has issued its first request first, and only adds
    to the trace. *)
Lemma receive_settles dest total d chunks st :
  ∃ st', receive dest total d chunks st = Some (Ret (), st')
         ∧ trace st' = trace st ++ map (λ n, Progress n total) (running_totals d chunks)
         ∧ (∀ q, q ≠ dest → fs st' !! q = fs st !! q)
         ∧ (∀ content, fs st !! dest = Some (File content) →
              fs st' !! dest = Some (File (content ++ concat chunks))).
Proof.
  revert d st. induction chunks as [|chunk rest IH]; intros d st.
  - exists st. cbn. rewrite app_nil_r. repeat split; try done.
    intros content ->. by rewrite app_nil_r.
  - cbn [receive running_totals map]. unfold bind at 1. cbn [emit].
    unfold bind at 1. cbn [write_chunk].
    edestruct IH as (st' & -> & Htr & Hfs & Hdest). exists st'.
    split; [done|]. split; [|split].
    + rewrite Htr. cbn. by rewrite <- app_assoc.
    + intros q Hq. rewrite Hfs by done. cbn. by rewrite lookup_alter_ne.
    + intros content Hc. cbn [concat]. rewrite app_assoc. apply Hdest.
      cbn. by rewrite lookup_alter_eq, Hc.
Qed.

Lemma download_trace fuel net url dest st out st' :
  download fuel net url dest st = Some (out, st') →
  ∃ tr, trace st' = trace st ++ HttpsGet url :: tr.
Proof.
  revert url st. induction fuel as [|fuel IH]; intros url st; [done|].
  rewrite download_S.
  destruct (net url) as [msg|r].
  { intros [= <- <-]. by exists []. }
  destruct (is_redirect _).
  { intros (tr & ->)%IH. cbn. exists (HttpsGet (location r) :: tr).
    by rewrite <- app_assoc. }
  destruct (negb _).
  { intros [= <- <-]. by exists []. }
  unfold bind at 1. unfold create_write_stream.
  destruct (open_write _ _) as [e|t]; cbn [logged fs trace].
  { intros [= <- <-]. by exists []. }
  unfold bind at 1.
  edestruct receive_settles as (st1 & -> & Htr & _ & _).
  cbn in Htr.
  destruct (aborted r); cbn; intros [= <- <-]; cbn; rewrite Htr, <- !app_assoc;
    eexists; cbn; reflexivity.
Qed.

Lemma append_empty_r (s : string) : s +:+ "" = s.
Proof.
  induction s as [|c s IH]; [done|].
  change (String c s +:+ "") with (String c (s +:+ "")). by rewrite IH.
Qed.

Lemma running_totals_length d chunks :
  length (running_totals d chunks) = length chunks.
Proof.
  revert d. induction chunks as [|c rest IH]; intros d; cbn; [done|].
  by rewrite IH.
Qed.

Lemma download_along_redirects net url k u dest st fuel :
  redirects net url k u →
  ∃ st1, fs st1 = fs st
         ∧ download (k + fuel) net url dest st = download fuel net u dest st1.
Proof.
  intros Hred. revert st. induction Hred as [u|u r k u' Hnet Hstatus _ IH]; intros st.
  - by exists st.
  - destruct (IH (logged (HttpsGet u) st)) as (st1 & Hfs & Heq).
    exists st1. split; [done|].
    cbn [Nat.add]. by rewrite download_S, Hnet, Hstatus.
Qed.

Lemma requests_app tr1 tr2 : requests (tr1 ++ tr2) = requests tr1 ++ requests tr2.
Proof. unfold requests. apply omap_app. Qed.

Lemma requests_progress total ns :
  requests (map (λ n, Progress n total) ns) = [].
Proof. by induction ns. Qed.

Lemma requests_snoc tr e :
  requests (tr ++ [e]) = requests tr ++ match e with HttpsGet u => [u] | _ => [] end.
Proof. rewrite requests_app. by destruct e. Qed.

Lemma download_requests fuel net url dest st out st' :
  download fuel net url dest st = Some (out, st') →
  requests (trace st') = requests (trace st) ++ hops fuel net url.
Proof.
  revert url st. induction fuel as [|fuel IH]; intros url st; [done|].
  rewrite download_S. cbn [hops].
  assert (Hone : requests (trace (logged (HttpsGet url) st))
                 = requests (trace st) ++ [url]).
  { unfold logged. cbn [trace]. by rewrite requests_snoc. }
  destruct (net url) as [msg|r].
  { by intros [= <- <-]. }
  destruct (is_redirect _).
  { intros ->%IH. by rewrite Hone, <- app_assoc. }
  destruct (negb _).
  { by intros [= <- <-]. }
  unfold bind at 1, create_write_stream.
  destruct (open_write _ _) as [e|t].
  { by intros [= <- <-]. }
  unfold bind at 1.
  edestruct receive_settles as (st1 & -> & Htr & _).
  cbn [trace] in Htr. fold (trace (logged (HttpsGet url) st)) in Htr.
  assert (Hst1 : requests (trace st1) = requests (trace st) ++ [url]).
  { by rewrite Htr, requests_app, requests_progress, app_nil_r. }
  destruct (aborted r); cbn; intros [= <- <-]; [done|].
  cbn [trace]. by rewrite requests_snoc, app_nil_r.
Qed.

Lemma open_write_writable t dest :
  writable t dest → open_write dest t = inr (<[dest := File []]> t).
Proof.
  intros [Hparent Hdest]. unfold open_write. rewrite Hparent.
  by destruct (node_at t dest) as [[|?]|].
Qed.

Lemma writable_nonempty t dest : writable t dest → dest ≠ [].
Proof. intros [_ Hdest] ->. by apply Hdest. Qed.

(** What a 200 response does, once reached. *)
Lemma download_200 fuel net url dest r st :
  net url = GetResponse r →
  statusCode r = 200%N →
  writable (fs st) dest →
  ∃ st', download (S fuel) net url dest st
         = Some (match aborted r with
                 | Some msg => Throw (RequestError msg)
                 | None => Ret ()
                 end, st')
       ∧ fs st' = <[dest := File (concat (body r))]> (fs st)
       ∧ trace st'
         = trace st ++ [HttpsGet url]
           ++ map (λ n, Progress n (parseInt10 (content_length r)))
                  (running_totals 0 (body r))
           ++ match aborted r with
              | Some _ => []
              | None => [ConsoleLog (nl +:+ "Download completed!")]
              end.
Proof.
  intros Hnet Hstatus Hw. rewrite download_S, Hnet, Hstatus.
  cbn [is_redirect N.eqb Pos.eqb orb negb].
  unfold bind at 1, create_write_stream. cbn [logged fs trace].
  rewrite (open_write_writable _ _ Hw). unfold bind at 1.
  edestruct receive_settles as (st1 & -> & Htr & Hframe & Hdest).
  cbn [fs trace] in Htr, Hframe, Hdest.
  assert (Hfs : fs st1 = <[dest := File (concat (body r))]> (fs st)).
  { apply map_eq. intros q. destruct (decide (q = dest)) as [->|Hq].
    - rewrite lookup_insert_eq. apply (Hdest []). by rewrite lookup_insert_eq.
    - by rewrite Hframe, !lookup_insert_ne. }
  destruct (aborted r) as [msg|]; cbn.
  - exists st1. split; [done|]. split; [done|].
    by rewrite Htr, app_nil_r, <- app_assoc.
  - eexists. split; [done|]. cbn. split; [done|].
    by rewrite Htr, <- !app_assoc.
Qed.

(** A download settles once its redirects have come to an end, and only
    then. *)
Lemma download_settles fuel net url dest st k u :
  k < fuel →
  redirects net url k u →
  ends net u →
  is_Some (download fuel net url dest st).
Proof.
  intros Hk Hred Hu.
  destruct (download_along_redirects net url k u dest st (fuel - k) Hred)
    as (st1 & _ & Heq).
  replace (k + (fuel - k)) with fuel in Heq by lia.
  rewrite Heq. destruct (fuel - k) as [|n] eqn:Hn; [lia|].
  rewrite download_S. unfold ends in Hu.
  destruct (net u) as [msg|r]; [done|]. rewrite Hu.
  destruct (negb _); [done|].
  unfold bind at 1, create_write_stream.
  destruct (open_write _ _); [done|].
  unfold bind at 1.
  edestruct receive_settles as (st2 & -> & _).
  destruct (aborted r); done.
Qed.


(** C3: a 301 or 302 response is not a failure: the request is issued
    again against the value of the [Location] header, and the download
    comes to what that follow-up download comes to, whatever it is.  When
    the follow-up request is not redirected in its turn, the download
    settles with two requests made, the second to [Location], and its
    outcome is the one the answer to that request decides: the request
    error, the failure for a status other than 200, or what the transfer
    of the body of a 200 response gives. *)
Theorem download_follows_redirect net url dest r fuel st :
  net url = GetResponse r →
  statusCode r = 301%N ∨ statusCode r = 302%N →
  download (S fuel) net url dest st
  = download fuel net (location r) dest (logged (HttpsGet url) st)
  ∧ (ends net (location r) →
     ∃ out st',
       download (S (S fuel)) net url dest st = Some (out, st')
       ∧ requests (trace st') = requests (trace st) ++ [url; location r]
       ∧ match net (location r) with
         | GetError msg => out = Throw (RequestError msg) ∧ fs st' = fs st
         | GetResponse r' =>
             if (statusCode r' =? 200)%N then
               writable (fs st) dest →
               out = match aborted r' with
                     | Some msg => Throw (RequestError msg)
                     | None => Ret ()
                     end
               ∧ fs st' = <[dest := File (concat (body r'))]> (fs st)
             else
               out = Throw (DownloadFailed (statusCode r')) ∧ fs st' = fs st
         end).
Proof.
  intros Hnet Hstatus%is_redirect_spec.
  assert (Heq : ∀ n, download (S n) net url dest st
                     = download n net (location r) dest (logged (HttpsGet url) st)).
  { intros n. by rewrite download_S, Hnet, Hstatus. }
  split; [apply Heq|]. intros Hends.
  destruct (download_settles (S (S fuel)) net url dest st 1 (location r))
    as [[out st'] Hrun]; [lia| |done|].
  { eapply redirects_step; [done..|constructor]. }
  exists out, st'. split; [done|]. split.
  { rewrite (download_requests _ _ _ _ _ _ _ Hrun). f_equal.
    cbn [hops]. rewrite Hnet, Hstatus. unfold ends in Hends.
    destruct (net (location r)) as [msg|r']; [done|]. by rewrite Hends. }
  rewrite Heq in Hrun. unfold ends in Hends.
  destruct (net (location r)) as [msg|r'] eqn:Hnet'.
  { rewrite download_S, Hnet' in Hrun. by injection Hrun as <- <-. }
  destruct (statusCode r' =? 200)%N eqn:H200.
  - apply N.eqb_eq in H200. intros Hw.
    destruct (download_200 fuel net (location r) dest r' (logged (HttpsGet url) st)
                Hnet' H200 Hw) as (st2 & Hrun2 & Hfs & _).
    rewrite Hrun2 in Hrun. by injection Hrun as <- <-.
  - rewrite download_S, Hnet', Hends, H200 in Hrun. by injection Hrun as <- <-.
Qed.

(** C4: a response that ends the redirect chain with a status other than
    200 (and other than 301 and 302) makes the download reject with an
    error whose message contains that status, and nothing is written to
    the filesystem. *)
Theorem download_rejects_status net url dest k u r st fuel :
  redirects net url k u →
  net u = GetResponse r →
  statusCode r ≠ 200%N → statusCode r ≠ 301%N → statusCode r ≠ 302%N →
  k < fuel →
  ∃ st', download fuel net url dest st
         = Some (Throw (DownloadFailed (statusCode r)), st')
       ∧ includes (message (DownloadFailed (statusCode r))) (pretty (statusCode r))
       ∧ fs st' = fs st.
Proof.
  intros Hred Hnet H200 H301 H302 Hk.
  destruct (download_along_redirects net url k u dest st (fuel - k) Hred)
    as (st1 & Hfs & Heq).
  replace (k + (fuel - k)) with fuel in Heq by lia.
  destruct (fuel - k) as [|n] eqn:Hn; [lia|].
  exists (logged (HttpsGet u) st1). split; [|split].
  - rewrite Heq, download_S, Hnet.
    destruct (is_redirect (statusCode r)) eqn:Hredir.
    { apply is_redirect_spec in Hredir. tauto. }
    destruct (statusCode r =? 200)%N eqn:Hs; [by apply N.eqb_eq in Hs|done].
  - exists "Download failed with status ", "". cbn [message].
    by rewrite append_empty_r.
  - done.
Qed.

(** C6 (as amended): during a successful status-200 download one progress
    line is written for every chunk received, whether or not the response
    has a [Content-Length] header.  The line carries the cumulative byte
    count over [parseInt] of the header, which is [NaN] when the header is
    absent. *)
Theorem download_progress_every_chunk net url dest r fuel st st' :
  net url = GetResponse r →
  statusCode r = 200%N →
  download (S fuel) net url dest st = Some (Ret (), st') →
  trace st' = trace st ++ [HttpsGet url]
              ++ map (λ n, Progress n (parseInt10 (content_length r)))
                     (running_totals 0 (body r))
              ++ [ConsoleLog (nl +:+ "Download completed!")]
  ∧ length (running_totals 0 (body r)) = length (body r)
  ∧ (content_length r = None → parseInt10 (content_length r) = NaN).
Proof.
  intros Hnet Hstatus. rewrite download_S, Hnet, Hstatus.
  cbn [is_redirect N.eqb Pos.eqb orb negb].
  unfold bind at 1, create_write_stream.
  destruct (open_write _ _) as [e|t]; [done|]. cbn [logged fs trace].
  unfold bind at 1.
  edestruct receive_settles as (st1 & -> & Htr & _ & _). cbn in Htr.
  intros Hdone. split; [|split].
  - destruct (aborted r); [done|]. cbn in Hdone. injection Hdone as <-.
    cbn. by rewrite Htr, <- !app_assoc.
  - apply running_totals_length.
  - by intros ->.
Qed.


(** ** Facts about the filesystem calls *)

Lemma elem_of_prefixes (q p : path) :
  q ∈ prefixes p ↔ q ≠ [] ∧ q `prefix_of` p.
Proof.
  revert q. induction p as [|c p IH]; intros q; cbn [prefixes].
  - split; [by intros ?%elem_of_nil|].
    intros [Hq ?%prefix_nil_inv]. done.
  - rewrite elem_of_cons, list_elem_of_fmap. split.
    + intros [->|(q' & -> & [Hq' Hpre]%IH)].
      * split; [done|]. by apply prefix_cons, prefix_nil.
      * split; [done|]. by apply prefix_cons.
    + intros [Hq Hpre]. destruct q as [|c' q']; [done|].
      apply prefix_cons_inv_1 in Hpre as Hc. subst c'.
      apply prefix_cons_inv_2 in Hpre.
      destruct q' as [|c'' q'']; [by left|].
      right. exists (c'' :: q''). split; [done|]. by apply IH.
Qed.

Lemma make_dirs_lookup (ps : list path) (t : filesystem) (q : path) :
  make_dirs ps t !! q = if decide (q ∈ ps) then Some Dir else t !! q.
Proof.
  induction ps as [|p ps IH]; cbn [make_dirs foldr].
  - destruct (decide (q ∈ [])) as [H|H]; [by apply elem_of_nil in H|done].
  - fold (make_dirs ps t). rewrite lookup_insert, IH.
    destruct (decide (p = q)) as [->|Hne], (decide (q ∈ ps)) as [Hin|Hin],
      (decide (q ∈ _ :: ps)) as [Hin'|Hin']; try done.
    + exfalso. apply Hin'. by left.
    + exfalso. apply Hin'. by left.
    + exfalso. apply Hin'. by right.
    + apply elem_of_cons in Hin' as [->|?]; done.
Qed.

Lemma node_at_lookup (t : filesystem) p : p ≠ [] → node_at t p = t !! p.
Proof. by destruct p. Qed.

Lemma existsb_is_file_false (t : filesystem) (ps : list path) :
  existsb (is_file t) ps = false ↔ ∀ q, q ∈ ps → is_file t q = false.
Proof.
  induction ps as [|p ps IH]; cbn.
  - split; [|done]. by intros _ q ?%elem_of_nil.
  - rewrite orb_false_iff, IH. split.
    + intros [Hp Hps] q [->|Hq]%elem_of_cons; auto.
    + intros H. split; [apply H; by left|]. intros q Hq. apply H. by right.
Qed.

(** What a download leaves of the filesystem: only [dest] can change, and
    a download that resolves leaves a file there. *)
Lemma download_fs fuel net url dest st out st' :
  download fuel net url dest st = Some (out, st') →
  (∀ q, q ≠ dest → fs st' !! q = fs st !! q)
  ∧ (out = Ret () → dest ≠ [] → ∃ content, fs st' !! dest = Some (File content)).
Proof.
  revert url st. induction fuel as [|fuel IH]; intros url st; [done|].
  rewrite download_S. destruct (net url) as [msg|r].
  { by intros [= <- <-]. }
  destruct (is_redirect _).
  { intros H. by apply IH in H. }
  destruct (negb _).
  { by intros [= <- <-]. }
  unfold bind at 1, create_write_stream. cbn [logged fs trace].
  destruct (open_write dest (fs st)) as [e|t] eqn:Hopen.
  { by intros [= <- <-]. }
  assert (Ht : t = <[dest := File []]> (fs st)).
  { unfold open_write in Hopen.
    destruct (node_at (fs st) dest) as [[|?]|]; [done|..];
      destruct (node_at (fs st) (parent dest)) as [[|?]|]; congruence. }
  unfold bind at 1.
  edestruct receive_settles as (st1 & -> & _ & Hfs & Hdest).
  intros Hout.
  assert (Hst : fs st' = fs st1 ∧ (out = Ret () → aborted r = None)).
  { destruct (aborted r); cbn in Hout; injection Hout as <- <-; done. }
  destruct Hst as [-> _]. cbn in Hfs, Hdest. subst t. split.
  - intros q Hq. rewrite Hfs by done. by rewrite lookup_insert_ne.
  - intros _ _. eexists. apply Hdest. by rewrite lookup_insert_eq.
Qed.

(** ** Facts about unpacking *)

Lemma is_file_lookup (t : filesystem) (q : path) content :
  t !! q = Some (File content) → q ≠ [] → is_file t q = true.
Proof. intros H Hq. unfold is_file. by rewrite node_at_lookup, H. Qed.

Lemma is_file_false (t : filesystem) (q : path) content :
  is_file t q = false → q ≠ [] → t !! q ≠ Some (File content).
Proof. intros Hf Hq Hc. by rewrite (is_file_lookup _ _ _ Hc Hq) in Hf. Qed.

Lemma existsb_is_file_true (t : filesystem) (ps : list path) :
  existsb (is_file t) ps = true → ∃ q, q ∈ ps ∧ is_file t q = true.
Proof.
  intros (q & Hq & Hf)%existsb_exists. exists q. by rewrite list_elem_of_In.
Qed.

Lemma is_file_true (t : filesystem) (q : path) :
  is_file t q = true → q ≠ [] ∧ ∃ content, t !! q = Some (File content).
Proof.
  unfold is_file. destruct q as [|c q]; [done|]. cbn.
  destruct (t !! (c :: q)) as [[|content]|]; try done. intros _. split; [done|by eexists].
Qed.

Lemma prefixes_self (p : path) : p ≠ [] → p ∈ prefixes p.
Proof. intros Hp. by apply elem_of_prefixes. Qed.

Lemma below_nonempty (cwd x : path) : x ≠ [] → cwd ++ x ≠ [].
Proof. intros Hx [_ ?]%app_eq_nil. done. Qed.

Lemma below_not_above (cwd x : path) : x ≠ [] → cwd ++ x ∉ prefixes cwd.
Proof.
  intros Hx [_ [k Hk]]%elem_of_prefixes. rewrite <- app_assoc in Hk.
  rewrite <- (app_nil_r cwd) in Hk at 1. apply app_inv_head in Hk.
  symmetry in Hk. by apply app_eq_nil in Hk as [? _].
Qed.

Lemma prefixes_app (p q : path) : prefixes (p ++ q) = prefixes p ++ map (app p) (prefixes q).
Proof.
  induction p as [|c p IH]; cbn.
  - by rewrite map_id.
  - rewrite IH, map_app, map_map. done.
Qed.

Lemma prefix_parent (x rest : path) :
  x ≠ [] → x `prefix_of` parent rest → x `prefix_of` rest ∧ x ≠ rest.
Proof.
  intros Hx [k Hk]. unfold parent in Hk.
  assert (Hrest : rest ≠ []).
  { intros ->. cbn in Hk. symmetry in Hk. by apply app_eq_nil in Hk as [? _]. }
  rewrite (app_removelast_last "" Hrest), Hk, <- app_assoc. split.
  - by apply prefix_app_r.
  - intros Heq. rewrite <- (app_nil_r x) in Heq at 1. apply app_inv_head in Heq.
    symmetry in Heq. by apply app_eq_nil in Heq as [_ ?].
Qed.

Lemma parent_below (cwd rest : path) : rest ≠ [] → parent (cwd ++ rest) = cwd ++ parent rest.
Proof. intros Hrest. unfold parent. by rewrite removelast_app. Qed.


Lemma unpack_all_cons unpack_entry e es st :
  unpack_all unpack_entry (e :: es) st =
  match unpack_entry e st with
  | Some (Ret _, st1) => unpack_all unpack_entry es st1
  | Some (Throw err, st1) => Some (Throw err, st1)
  | Some (Exit code, st1) => Some (Exit code, st1)
  | None => None
  end.
Proof.
  cbn [unpack_all]. unfold bind.
  by destruct (unpack_entry e st) as [[[[]|?|?] ?]|].
Qed.

Lemma unpack_inv unpack_entry d st out st' :
  unpack unpack_entry d st = Some (out, st') →
  ∃ o, unpack_all unpack_entry (entries d) st = Some (o, st')
       ∧ out = match o with
               | Ret _ => match damage d with
                          | Some msg => Throw (ArchiveError msg)
                          | None => Ret ()
                          end
               | _ => o
               end.
Proof.
  unfold unpack, bind.
  destruct (unpack_all unpack_entry (entries d) st) as [[[[]|err|code] st1]|];
    [|intros [= <- <-]; by eexists..|done].
  destruct (damage d); intros [= <- <-]; by eexists.
Qed.

Lemma unpacked_refl (cwd : path) (land : entry → option path) (e : entry)
    (t : filesystem) :
  unpacked cwd land e t t.
Proof. split; [done|]. split; [by left|done]. Qed.

(** *** What the two libraries share *)

Section Unpacking.

Variable cwd : path.
Variable land : entry → option path.
Variable ready : filesystem → Prop.
Variable unpack_entry : entry → M unit.
Hypothesis library : unpacks cwd land ready unpack_entry.

(** Unpacking ends; it prints nothing; it writes below [cwd] only, and
    every node it leaves there that was not there before is the work of
    a member. *)
Lemma unpack_all_sound es st :
  ready (fs st) →
  ∃ out st',
    unpack_all unpack_entry es st = Some (out, st')
    ∧ trace st' = trace st
    ∧ ready (fs st')
    ∧ benign out
    ∧ confined_below cwd (fs st) (fs st')
    ∧ (∀ x n, x ≠ [] → fs st' !! (cwd ++ x) = Some n →
              fs st !! (cwd ++ x) = Some n ∨ ∃ e, e ∈ es ∧ accounts land e x n).
Proof.
  destruct library as [_ Hstep].
  revert st. induction es as [|e es IH]; intros st Hready.
  { exists (Ret ()), st. repeat split; try done. by left. }
  rewrite unpack_all_cons.
  destruct (Hstep e st Hready)
    as (o & st1 & -> & Htr & Hready1 & Hb & (Hframe & Hnew & _) & _).
  destruct o as [[]|err|code].
  - destruct (IH st1 Hready1) as (out & st' & -> & Htr' & Hready' & Hb' & Hframe' & Hnew').
    exists out, st'. split; [done|]. split; [congruence|]. split; [done|].
    split; [done|]. split.
    + intros q Hq. by rewrite Hframe', Hframe.
    + intros x n Hx [Hn|(e' & He' & Hacc)]%Hnew'; [|right; exists e'; split; [by right|done]|done].
      apply Hnew in Hn as [Hn|Hacc]; [by left| |done].
      right. exists e. split; [by left|done].
  - exists (Throw err), st1. repeat split; try done; try apply Hb.
    intros x n Hx [Hn|Hacc]%Hnew; [by left| |done].
    right. exists e. split; [by left|done].
  - destruct Hb as [Hexit _]. by destruct (Hexit code).
Qed.



End Unpacking.

(** *** Making directories and putting a node in place *)

Lemma unpacked_make_dirs (cwd : path) (land : entry → option path) (e : entry)
    (rest : path) (dirs : list path) (t : filesystem) :
  land e = Some rest →
  (∀ q, q ∈ dirs → t !! q = Some Dir ∨ ∃ x, x ≠ [] ∧ x `prefix_of` rest ∧ q = cwd ++ x) →
  (∀ q, q ∈ dirs → is_file t q = false) →
  (cwd ++ rest ∈ dirs → entry_body e = None) →
  unpacked cwd land e t (make_dirs dirs t).
Proof.
  intros Hl Hshape Hfiles Htarget. split; [|split].
  - intros q Hq. rewrite make_dirs_lookup.
    destruct (decide (q ∈ dirs)) as [Hin|]; [|done].
    destruct (Hshape q Hin) as [->|(x & Hx & _ & ->)]; [done|]. by destruct (Hq x).
  - intros x n Hx. rewrite make_dirs_lookup.
    destruct (decide (cwd ++ x ∈ dirs)) as [Hin|]; [|by left].
    intros [= <-]. destruct (Hshape _ Hin) as [?|(x' & Hx' & Hpre & Heq)]; [by left|].
    apply app_inv_head in Heq as <-. right. exists rest. split; [done|].
    destruct (decide (x = rest)) as [->|Hne]; [right|by left].
    split; [done|]. unfold node_of. by rewrite Htarget.
  - intros x n Hx Hn _. rewrite make_dirs_lookup.
    destruct (decide (cwd ++ x ∈ dirs)) as [Hin|]; [|done].
    destruct n as [|content]; [done|]. apply Hfiles in Hin.
    by apply (is_file_false _ _ content) in Hin; [|apply below_nonempty].
Qed.

Lemma unpacked_put (cwd : path) (land : entry → option path) (e : entry)
    (rest : path) (t t1 : filesystem) :
  land e = Some rest →
  rest ≠ [] →
  unpacked cwd land e t t1 →
  unpacked cwd land e t (<[cwd ++ rest := node_of e]> t1).
Proof.
  intros Hl Hrest (Hframe & Hnew & Hkeep). split; [|split].
  - intros q Hq. rewrite lookup_insert_ne by (intros <-; by apply (Hq rest)).
    by apply Hframe.
  - intros x n Hx. rewrite lookup_insert.
    destruct (decide (cwd ++ rest = cwd ++ x)) as [Heq|]; [|by apply Hnew].
    apply app_inv_head in Heq as <-. intros [= <-]. right. exists rest.
    split; [done|]. by right.
  - intros x n Hx Hn Hor. rewrite lookup_insert.
    destruct (decide (cwd ++ rest = cwd ++ x)) as [Heq|]; [|by apply Hkeep].
    apply app_inv_head in Heq as <-. destruct Hor as [?|[-> Hb]]; [done|].
    unfold node_of. by rewrite Hb.
Qed.

(** *** [tar.extract] *)

Lemma landing_nonempty strip e rest : landing strip e = Some rest → rest ≠ [].
Proof.
  unfold landing. destruct (_ <? _)%nat; [done|].
  case_bool_decide; [done|]. case_bool_decide; [done|]. by intros [= <-].
Qed.

Lemma tar_dirs_shape (cwd rest q : path) :
  q ∈ map (app cwd) (prefixes (parent rest)) →
  ∃ x, x ≠ [] ∧ x `prefix_of` rest ∧ x ≠ rest ∧ q = cwd ++ x.
Proof.
  intros (x & -> & [Hx Hpre]%elem_of_prefixes)%list_elem_of_fmap. exists x.
  by destruct (prefix_parent x rest Hx Hpre).
Qed.

Lemma tar_unpack_entry_unpacks cwd strip :
  unpacks cwd (landing strip) (λ _, True) (tar_unpack_entry cwd strip).
Proof.
  split; [apply landing_nonempty|]. intros e st _. unfold tar_unpack_entry.
  destruct (landing strip e) as [rest|] eqn:Hl.
  2:{ exists (Ret ()), st. split; [done|]. split; [done|]. split; [done|].
      split; [by split|]. split; [|by split]. split; [done|]. split; [by left|done]. }
  assert (Hrest : rest ≠ []) by by eapply landing_nonempty.
  set (dirs := map (app cwd) (prefixes (parent rest))).
  destruct (existsb (is_file (fs st)) dirs) eqn:Hex.
  { exists (Ret ()), st. split; [done|]. split; [done|]. split; [done|].
    split; [by split|]. split; [|split; [|done]].
    { split; [done|]. split; [by left|done]. }
    intros r [= <-] [Hchain _]. exfalso.
    apply existsb_is_file_true in Hex as (q & Hq & Hf).
    apply tar_dirs_shape in Hq as (x & Hx & Hpre & Hne & ->).
    apply is_file_true in Hf as [_ [c Hc]]. by apply (Hchain x c). }
  rewrite existsb_is_file_false in Hex.
  assert (Hmk : unpacked cwd (landing strip) e (fs st) (make_dirs dirs (fs st))).
  { apply (unpacked_make_dirs _ _ _ rest); [done| |done|].
    - intros q (x & ? & ? & ? & ->)%tar_dirs_shape. right. by exists x.
    - intros (x & ? & ? & Hne & Heq)%tar_dirs_shape. by apply app_inv_head in Heq. }
  pose proof (unpacked_put _ _ _ _ _ _ Hl Hrest Hmk) as Hput.
  assert (Htarget : node_at (make_dirs dirs (fs st)) (cwd ++ rest)
                    = fs st !! (cwd ++ rest)).
  { rewrite node_at_lookup by by apply below_nonempty. rewrite make_dirs_lookup.
    destruct (decide (cwd ++ rest ∈ dirs)) as [Hin|]; [|done].
    apply tar_dirs_shape in Hin as (x & ? & ? & Hne & Heq).
    by apply app_inv_head in Heq. }
  assert (Hwrite : ∃ out st',
    Some (Ret (), {| fs := <[cwd ++ rest := node_of e]> (make_dirs dirs (fs st));
                     trace := trace st |}) = Some (out, st')
    ∧ trace st' = trace st ∧ True ∧ benign out
    ∧ unpacked cwd (landing strip) e (fs st) (fs st')
    ∧ (∀ rest0, Some rest = Some rest0 → clear cwd (fs st) e rest0 →
         out = Ret () ∧ fs st' !! (cwd ++ rest0) = Some (node_of e))
    ∧ (Some rest = None → out = Ret ())).
  { eexists _, _. split; [done|]. split; [done|]. split; [done|].
    split; [by split|]. split; [done|]. split; [|done].
    intros r [= <-] _. split; [done|]. cbn. by rewrite lookup_insert_eq. }
  rewrite Htarget.
  destruct (node_of e) as [|content] eqn:Hnode; [done|].
  destruct (fs st !! (cwd ++ rest)) as [[|old]|] eqn:Hat; [|done..].
  destruct (is_empty_dir _ _); [done|].
  eexists _, _. split; [done|]. split; [done|]. split; [done|].
  split; [by split|]. split; [done|]. split; [|done].
  intros r [= <-] [_ Hno]. unfold node_of in Hnode.
  destruct (entry_body e); [|done]. by rewrite Hat in Hno.
Qed.


(** *** [extractAllTo] *)

Lemma zip_landing_nonempty e rest : zip_landing e = Some rest → rest ≠ [].
Proof. unfold zip_landing. case_bool_decide; [done|]. by intros [= <-]. Qed.

Lemma zip_landing_canonical e rest :
  zip_landing e = Some rest → canonical (entry_path e) = rest.
Proof. unfold zip_landing. case_bool_decide; [done|]. by intros [= <-]. Qed.

Lemma zip_landing_none e : zip_landing e = None → canonical (entry_path e) = [].
Proof. unfold zip_landing. by case_bool_decide. Qed.

(** The directories down to [cwd] are there. *)
Lemma ready_at (cwd : path) (t : filesystem) :
  (∀ q, q ∈ prefixes cwd → t !! q = Some Dir) → node_at t cwd = Some Dir.
Proof.
  intros Hready. destruct (decide (cwd = [])) as [->|Hne]; [done|].
  rewrite node_at_lookup by done. by apply Hready, prefixes_self.
Qed.

Lemma zip_dirs_shape (cwd rest q : path) (t : filesystem) :
  (∀ q, q ∈ prefixes cwd → t !! q = Some Dir) →
  q ∈ prefixes (cwd ++ rest) →
  t !! q = Some Dir ∨ ∃ x, x ≠ [] ∧ x `prefix_of` rest ∧ q = cwd ++ x.
Proof.
  intros Hready. rewrite prefixes_app.
  intros [Hq|(x & -> & [Hx Hpre]%elem_of_prefixes)%list_elem_of_fmap]%elem_of_app.
  - left. by apply Hready.
  - right. by exists x.
Qed.

Lemma not_above_itself (target : path) : target ∉ prefixes (parent target).
Proof.
  intros [Hne Hpre]%elem_of_prefixes. by destruct (prefix_parent _ _ Hne Hpre).
Qed.

(** [writeFileTo], case by case. *)
Lemma zip_writeFileTo_eq target content st :
  target ≠ [] →
  zip_writeFileTo target content st
  = match fs st !! target with
    | Some Dir => Some (Ret (), st)
    | _ =>
        match node_at (fs st) (parent target) with
        | Some Dir =>
            Some (Ret (), {| fs := <[target := File content]> (fs st);
                             trace := trace st |})
        | Some (File _) => Some (Throw (FsError "ENOTDIR" target), st)
        | None =>
            if existsb (is_file (fs st)) (prefixes (parent target))
            then Some (Throw (ArchiveError ("There is a file in the way: "
                                            +:+ path_text (parent target))), st)
            else Some (Ret (),
                       {| fs := <[target := File content]>
                                  (make_dirs (prefixes (parent target)) (fs st));
                          trace := trace st |})
        end
    end.
Proof.
  intros Hne. unfold zip_writeFileTo. rewrite node_at_lookup by done.
  assert (Hopen : ∀ t : filesystem,
    t !! target ≠ Some Dir → node_at t (parent target) = Some Dir →
    open_write target t = inr (<[target := File []]> t)).
  { intros t Ht Hp. unfold open_write. rewrite node_at_lookup, Hp by done.
    by destruct (t !! target) as [[|?]|]. }
  destruct (fs st !! target) as [[|old]|] eqn:Hat; [done|..].
  all: unfold bind.
  all: destruct (node_at (fs st) (parent target)) as [[|c]|] eqn:Hp.
  all: rewrite ?bool_decide_eq_true_2 by by eexists.
  all: rewrite ?bool_decide_eq_false_2 by by intros [? ?].
  all: cbn [ret].
  1,4: by rewrite Hopen by (done || by rewrite Hat).
  1,3: unfold open_write; by rewrite node_at_lookup, Hat, Hp by done.
  all: assert (Hpne : parent target ≠ []) by (by intros Hnil; rewrite Hnil in Hp).
  all: unfold zip_makeDir.
  all: destruct (existsb (is_file (fs st)) (prefixes (parent target))); [done|].
  all: cbn [fs trace]; rewrite Hopen; [done| |].
  1,3: by rewrite make_dirs_lookup, decide_False, Hat by apply not_above_itself.
  all: by rewrite node_at_lookup, make_dirs_lookup, decide_True
         by (done || by apply prefixes_self).
Qed.

Lemma zip_unpack_entry_unpacks cwd :
  unpacks cwd zip_landing (λ t, ∀ q, q ∈ prefixes cwd → t !! q = Some Dir)
    (zip_unpack_entry cwd).
Proof.
  split; [apply zip_landing_nonempty|]. intros e st Hready.
  assert (Hkeep_ready : ∀ t', confined_below cwd (fs st) t' →
            ∀ q, q ∈ prefixes cwd → t' !! q = Some Dir).
  { intros t' Hframe q Hq. rewrite Hframe; [by apply Hready|].
    intros x Hx ->. by apply below_not_above in Hq. }
  assert (Hsame : ∀ out,
    benign out →
    (∀ rest, zip_landing e = Some rest → clear cwd (fs st) e rest → out = Ret ()) →
    (zip_landing e = None → out = Ret ()) →
    (out = Ret () → ∀ rest, zip_landing e = Some rest → clear cwd (fs st) e rest → False) →
    ∃ out' st',
      Some (out, st) = Some (out', st')
      ∧ trace st' = trace st
      ∧ (∀ q, q ∈ prefixes cwd → fs st' !! q = Some Dir)
      ∧ benign out'
      ∧ unpacked cwd zip_landing e (fs st) (fs st')
      ∧ (∀ rest, zip_landing e = Some rest → clear cwd (fs st) e rest →
           out' = Ret () ∧ fs st' !! (cwd ++ rest) = Some (node_of e))
      ∧ (zip_landing e = None → out' = Ret ())).
  { intros out Hb Hplace Hnone Hskip. exists out, st.
    split; [done|]. split; [done|]. split; [done|]. split; [done|].
    split; [apply unpacked_refl|]. split; [|done].
    intros rest Hl Hclear. pose proof (Hplace rest Hl Hclear) as ->.
    by destruct (Hskip eq_refl rest Hl Hclear). }
  assert (Hchain : ∀ rest tail,
    zip_landing e = Some rest → clear cwd (fs st) e rest →
    tail `prefix_of` rest → tail ≠ rest →
    existsb (is_file (fs st)) (prefixes (cwd ++ tail)) = false).
  { intros rest tail Hl [Hclear _] Htail Hne. apply existsb_is_file_false.
    intros q Hq. destruct (is_file (fs st) q) eqn:Hf; [|done]. exfalso.
    apply is_file_true in Hf as [_ [c Hc]].
    destruct (zip_dirs_shape _ _ _ _ Hready Hq) as [Hd|(x & Hx & Hpre & ->)];
      [congruence|].
    apply (Hclear x c); [done| |  |done].
    - by etrans.
    - intros ->. apply Hne. by apply (anti_symm prefix). }
  unfold zip_unpack_entry.
  destruct (zip_landing e) as [rest|] eqn:Hl.
  2:{ apply zip_landing_none in Hl as Hcan. rewrite Hcan, app_nil_r.
      assert (Hno : existsb (is_file (fs st)) (prefixes cwd) = false).
      { apply existsb_is_file_false. intros q Hq. unfold is_file.
        assert (q ≠ []) by (by apply elem_of_prefixes in Hq as [? _]).
        by rewrite node_at_lookup, Hready. }
      destruct (entry_body e) as [content|].
      - unfold zip_writeFileTo. rewrite (ready_at _ _ Hready).
        apply Hsame; [by split|done..].
      - unfold zip_makeDir. rewrite Hno.
        eexists _, _. split; [done|]. split; [done|]. cbn [fs].
        assert (Hall : ∀ q, make_dirs (prefixes cwd) (fs st) !! q = fs st !! q).
        { intros q. rewrite make_dirs_lookup.
          destruct (decide (q ∈ prefixes cwd)) as [Hq|]; [|done]. by rewrite Hready. }
        split; [intros q Hq; rewrite Hall; by apply Hready|].
        split; [by split|]. split; [|done].
        split; [by intros q _|]. split.
        + intros x n Hx. rewrite Hall. by left.
        + intros x n Hx Hn _. by rewrite Hall. }
  apply zip_landing_canonical in Hl as Hcan. rewrite Hcan.
  assert (Hrest : rest ≠ []) by by eapply zip_landing_nonempty.
  assert (Htarget_ne : cwd ++ rest ≠ []) by by apply below_nonempty.
  destruct (entry_body e) as [content|] eqn:Hbody.
  - (* a file member *)
    assert (Hwrite : ∀ t1,
      unpacked cwd zip_landing e (fs st) t1 →
      ∃ out st',
        Some (Ret (), {| fs := <[cwd ++ rest := File content]> t1; trace := trace st |})
        = Some (out, st')
        ∧ trace st' = trace st
        ∧ (∀ q, q ∈ prefixes cwd → fs st' !! q = Some Dir)
        ∧ benign out
        ∧ unpacked cwd zip_landing e (fs st) (fs st')
        ∧ (∀ rest0, Some rest = Some rest0 → clear cwd (fs st) e rest0 →
             out = Ret () ∧ fs st' !! (cwd ++ rest0) = Some (node_of e))
        ∧ (Some rest = None → out = Ret ())).
    { intros t1 Ht1.
      pose proof (unpacked_put _ _ _ _ _ _ Hl Hrest Ht1) as Hput.
      unfold node_of in Hput. rewrite Hbody in Hput.
      eexists _, _. split; [done|]. split; [done|]. cbn [fs].
      split; [apply Hkeep_ready, Hput|]. split; [by split|]. split; [done|].
      split; [|done]. intros r [= <-] _. split; [done|].
      unfold node_of. by rewrite Hbody, lookup_insert_eq. }
    assert (Hfolder : ∀ c, node_at (fs st) (cwd ++ parent rest) = Some (File c) →
              clear cwd (fs st) e rest → False).
    { intros c Hnp [Hclear _].
      destruct (decide (parent rest = [])) as [Hp|Hp].
      { by rewrite Hp, app_nil_r, (ready_at _ _ Hready) in Hnp. }
      rewrite node_at_lookup in Hnp by by apply below_nonempty.
      destruct (prefix_parent (parent rest) rest Hp) as [Hp1 Hp2]; [done|].
      by apply (Hclear (parent rest) c). }
    rewrite zip_writeFileTo_eq by done. rewrite parent_below by done.
    destruct (fs st !! (cwd ++ rest)) as [[|old]|] eqn:Hat.
    { apply Hsame; [by split| |done|].
      - intros r [= <-] [_ Hno]. by rewrite Hbody in Hno.
      - intros _ r [= <-] [_ Hno]. by rewrite Hbody in Hno. }
    all: destruct (node_at (fs st) (cwd ++ parent rest)) as [[|c]|] eqn:Hp.
    1,4: apply Hwrite, unpacked_refl.
    1,3: apply Hsame; [by split| |done|done];
         intros r [= <-] Hclear; by destruct (Hfolder c).
    all: destruct (existsb (is_file (fs st)) (prefixes (cwd ++ parent rest))) eqn:Hex.
    1,3: apply Hsame; [by split| |done|done];
         intros r [= <-] Hclear; exfalso;
         destruct (decide (parent rest = [])) as [Hpr|Hpr];
           [by rewrite Hpr, app_nil_r, (ready_at _ _ Hready) in Hp|];
         destruct (prefix_parent (parent rest) rest Hpr) as [Hp1 Hp2]; [done|];
         by rewrite (Hchain rest (parent rest)) in Hex.
    all: apply Hwrite; rewrite existsb_is_file_false in Hex.
    all: apply (unpacked_make_dirs _ _ _ rest); [done| |done|].
    1,3: intros q Hq; destruct (zip_dirs_shape _ _ _ _ Hready Hq)
           as [?|(x & Hx & Hpre & ->)]; [by left|right; exists x];
         split; [done|]; split; [|done]; by destruct (prefix_parent _ _ Hx Hpre).
    all: rewrite <- parent_below by done; intros Hin;
         by apply not_above_itself in Hin.
  - (* a directory member *)
    unfold zip_makeDir.
    destruct (existsb (is_file (fs st)) (prefixes (cwd ++ rest))) eqn:Hex.
    { apply Hsame; [by split| |done|done].
      intros r [= <-] Hclear. exfalso.
      apply existsb_is_file_true in Hex as (q & Hq & Hf).
      apply is_file_true in Hf as [_ [c Hc]].
      destruct (zip_dirs_shape _ _ _ _ Hready Hq) as [Hd|(x & Hx & Hpre & ->)];
        [congruence|].
      destruct Hclear as [Hchain' Hno]. rewrite Hbody in Hno.
      destruct (decide (x = rest)) as [->|Hne]; [by apply (Hno c)|].
      by apply (Hchain' x c). }
    rewrite existsb_is_file_false in Hex.
    assert (Hmk : unpacked cwd zip_landing e (fs st)
                    (make_dirs (prefixes (cwd ++ rest)) (fs st))).
    { apply (unpacked_make_dirs _ _ _ rest); [done| |done|done].
      intros q Hq. by apply zip_dirs_shape. }
    eexists _, _. split; [done|]. split; [done|]. cbn [fs].
    split; [apply Hkeep_ready, Hmk|]. split; [by split|]. split; [done|].
    split; [|done]. intros r [= <-] _. split; [done|].
    rewrite make_dirs_lookup, decide_True by by apply prefixes_self.
    unfold node_of. by rewrite Hbody.
Qed.

(** *** The two calls as a whole *)

Lemma tar_unpack_inv cwd strip d st out st' :
  unpack (tar_unpack_entry cwd strip) d st = Some (out, st') →
  benign out ∧ trace st' = trace st ∧ confined_below cwd (fs st) (fs st').
Proof.
  intros (o & Hall & ->)%unpack_inv.
  destruct (unpack_all_sound _ _ _ _ (tar_unpack_entry_unpacks cwd strip)
              (entries d) st I)
    as (o' & st1 & Hrun & Htr & _ & Hb & Hframe & _).
  rewrite Hall in Hrun. injection Hrun as <- <-. split; [|done].
  destruct o as [[]|err|code]; [|done..]. destruct (damage d); by split.
Qed.

Lemma zip_unpack_inv cwd d st out st' :
  (∀ q, q ∈ prefixes cwd → fs st !! q = Some Dir) →
  unpack (zip_unpack_entry cwd) d st = Some (out, st') →
  benign out ∧ trace st' = trace st ∧ confined_below cwd (fs st) (fs st').
Proof.
  intros Hready (o & Hall & ->)%unpack_inv.
  destruct (unpack_all_sound _ _ _ _ (zip_unpack_entry_unpacks cwd)
              (entries d) st Hready)
    as (o' & st1 & Hrun & Htr & _ & Hb & Hframe & _).
  rewrite Hall in Hrun. injection Hrun as <- <-. split; [|done].
  destruct o as [[]|err|code]; [|done..]. destruct (damage d); by split.
Qed.

Lemma confined_below_at (cwd : path) (t t' : filesystem) :
  confined_below cwd t t' → t' !! cwd = t !! cwd.
Proof.
  intros Hframe. apply Hframe. intros x Hx Heq.
  rewrite <- (app_nil_r cwd) in Heq at 1. apply app_inv_head in Heq. by subst.
Qed.

Lemma bind_inv {A B} (m : M A) (k : A → M B) st out st' :
  bind m k st = Some (out, st') →
  (∃ a st1, m st = Some (Ret a, st1) ∧ k a st1 = Some (out, st'))
  ∨ (∃ e, m st = Some (Throw e, st') ∧ out = Throw e)
  ∨ (∃ code, m st = Some (Exit code, st') ∧ out = Exit code).
Proof.
  unfold bind. destruct (m st) as [[[a|e|code] st1]|]; [|intros [= <- <-]..|done].
  - intros Hk. left. by exists a, st1.
  - right. left. by exists e.
  - right. right. by exists code.
Qed.

Section ScriptFacts.

Variable project_root : path.
Variable read_targz : list byte → decoded.
Variable read_zip : list byte → decoded.

Local Abbreviation tar_extract := (tar_extract read_targz).
Local Abbreviation zip_extractAllTo := (zip_extractAllTo read_zip).
Local Abbreviation extractTarGz := (extractTarGz read_targz).
Local Abbreviation extractZip := (extractZip read_zip).
Local Abbreviation extract_by_type := (extract_by_type read_targz read_zip).
Local Abbreviation downloadAndSetup := (downloadAndSetup project_root read_targz read_zip).
Local Abbreviation main := (main project_root read_targz read_zip).
Local Abbreviation resourcesDir := (resourcesDir project_root).
Local Abbreviation pythonDir := (pythonDir project_root).
Local Abbreviation archivePath := (archivePath project_root).
Local Abbreviation skip_lines := (skip_lines project_root).
Local Abbreviation download_begins := (download_begins project_root).
Local Abbreviation pipeline := (pipeline project_root read_targz read_zip).
Local Abbreviation invocations := (invocations project_root read_targz read_zip).

Lemma tar_extract_inv file cwd strip st out st' :
  tar_extract file cwd strip st = Some (out, st') →
  (st' = st ∧ ∃ code p, out = Throw (FsError code p))
  ∨ ∃ content, node_at (fs st) file = Some (File content)
               ∧ node_at (fs st) cwd = Some Dir
               ∧ unpack (tar_unpack_entry cwd strip) (read_targz content) st
                 = Some (out, st').
Proof.
  unfold tar_extract, bind, read_file, require_dir.
  destruct (node_at (fs st) file) as [[|content]|].
  - intros [= <- <-]. left. split; [done|]. by eexists _, _.
  - destruct (node_at (fs st) cwd) as [[|?]|].
    + intros Hun. right. by exists content.
    + intros [= <- <-]. left. split; [done|]. by eexists _, _.
    + intros [= <- <-]. left. split; [done|]. by eexists _, _.
  - intros [= <- <-]. left. split; [done|]. by eexists _, _.
Qed.

Lemma extractTarGz_effect tarPath destDir st out st' :
  destDir ≠ [] →
  extractTarGz tarPath destDir st = Some (out, st') →
  benign out
  ∧ (∀ q, outside destDir q → fs st' !! q = fs st !! q)
  ∧ (existsb (is_file (fs st)) (prefixes destDir) = false →
     fs st' !! destDir = Some Dir).
Proof.
  intros Hdest. unfold extractTarGz.
  unfold bind at 1. cbn [console_log emit]. unfold bind at 1.
  unfold fs_mkdir_recursive at 1. cbn [fs trace].
  destruct (existsb (is_file (fs st)) (prefixes destDir)) eqn:Hex.
  { intros [= <- <-]. by repeat split. }
  cbv beta iota.
  set (st1 := {| fs := make_dirs _ _; trace := _ |}).
  assert (Hmade : fs st1 !! destDir = Some Dir).
  { cbn. rewrite make_dirs_lookup.
    destruct (decide (destDir ∈ prefixes destDir)) as [|Hn]; [done|].
    by destruct Hn; apply prefixes_self. }
  assert (Hframe : ∀ q, outside destDir q → fs st1 !! q = fs st !! q).
  { intros q [Hq _]. cbn. rewrite make_dirs_lookup.
    by destruct (decide (q ∈ prefixes destDir)). }
  unfold bind at 1.
  destruct (tar_extract tarPath destDir 1 st1) as [[o st2]|] eqn:Htar; [|done].
  apply tar_extract_inv in Htar
    as [[-> (c & p & ->)]
       |(content & _ & _ & (Hb & _ & Hconf)%tar_unpack_inv)].
  - intros [= <- <-]. by repeat split.
  - assert (Hst2 : (∀ q, outside destDir q → fs st2 !! q = fs st !! q)
                   ∧ fs st2 !! destDir = Some Dir).
    { split; [|by rewrite (confined_below_at _ _ _ Hconf)].
      intros q Hq. rewrite Hconf by apply Hq. by apply Hframe. }
    destruct Hb as [Hexit Htype], Hst2 as [? ?].
    destruct o as [[]|e|code]; intros [= <- <-]; by repeat split.
Qed.

Lemma extractZip_effect zipPath destDir st out st' :
  destDir ≠ [] →
  extractZip zipPath destDir st = Some (out, st') →
  benign out
  ∧ (∀ q, outside destDir q → fs st' !! q = fs st !! q)
  ∧ (existsb (is_file (fs st)) (prefixes destDir) = false →
     fs st' !! destDir = Some Dir).
Proof.
  intros Hdest. unfold extractZip.
  unfold bind at 1. cbn [console_log emit]. unfold bind at 1.
  unfold fs_mkdir_recursive at 1. cbn [fs trace].
  destruct (existsb (is_file (fs st)) (prefixes destDir)) eqn:Hex.
  { intros [= <- <-]. by repeat split. }
  cbv beta iota.
  set (st1 := {| fs := make_dirs _ _; trace := _ |}).
  assert (Hmade : ∀ q, q ∈ prefixes destDir → fs st1 !! q = Some Dir).
  { intros q Hq. cbn. rewrite make_dirs_lookup.
    by destruct (decide (q ∈ prefixes destDir)). }
  assert (Hframe : ∀ q, outside destDir q → fs st1 !! q = fs st !! q).
  { intros q [Hq _]. cbn. rewrite make_dirs_lookup.
    by destruct (decide (q ∈ prefixes destDir)). }
  unfold bind at 1, zip_extractAllTo at 1. unfold bind at 1, read_file.
  destruct (node_at (fs st1) zipPath) as [[|content]|];
    [intros [= <- <-]; repeat split; try done; by auto using prefixes_self| |
     intros [= <- <-]; repeat split; try done; by auto using prefixes_self].
  destruct (unpack (zip_unpack_entry destDir) (read_zip content) st1)
    as [[o st2]|] eqn:Hun; [|done].
  apply zip_unpack_inv in Hun as ([Hexit Htype] & _ & Hconf); [|done].
  assert (∀ q, outside destDir q → fs st2 !! q = fs st !! q).
  { intros q Hq. rewrite Hconf by apply Hq. by apply Hframe. }
  assert (fs st2 !! destDir = Some Dir).
  { rewrite (confined_below_at _ _ _ Hconf). by apply Hmade, prefixes_self. }
  destruct o as [[]|e|code]; intros [= <- <-]; by repeat split.
Qed.

(** *** Stepping through the script *)

Lemma bind_console_log {B} line (k : M B) st :
  (console_log line ;; k) st = k (logged (ConsoleLog line) st).
Proof. reflexivity. Qed.

Lemma bind_console_error {B} line (k : M B) st :
  (console_error line ;; k) st = k (logged (ConsoleError line) st).
Proof. reflexivity. Qed.

Lemma bind_ret {A B} (a : A) (k : A → M B) st : bind (ret a) k st = k a st.
Proof. reflexivity. Qed.

Lemma own_property_elem tbl key d :
  own_property tbl key = Some d → (key, d) ∈ tbl.
Proof.
  induction tbl as [|[k d'] tbl IH]; cbn; [done|].
  destruct (decide (k = key)) as [->|_].
  - intros [= ->]. by left.
  - intros H. right. by apply IH.
Qed.

Lemma PLATFORMS_get_own key d :
  own_property PLATFORMS key = Some d → PLATFORMS_get key = JConfig d.
Proof. unfold PLATFORMS_get. by intros ->. Qed.

Lemma PLATFORMS_recognized key d :
  own_property PLATFORMS key = Some d → recognized d = true.
Proof.
  intros Hin%own_property_elem.
  assert (Hall : Forall (λ kd, recognized kd.2 = true) PLATFORMS).
  { repeat constructor. }
  rewrite Forall_forall in Hall. by apply (Hall (key, d)).
Qed.

Lemma prefixes_snoc (p : path) c : prefixes (p ++ [c]) = prefixes p ++ [p ++ [c]].
Proof.
  induction p as [|c' p IH]; cbn; [done|].
  by rewrite IH, map_app.
Qed.

Lemma not_prefix_sibling (p : path) a b x : a ≠ b → p ++ [a] ≠ (p ++ [b]) ++ x.
Proof.
  intros Hab Heq. rewrite <- app_assoc in Heq. by apply app_inv_head in Heq as [= ?].
Qed.

Lemma snoc_not_in_prefixes (p : path) a : p ++ [a] ∉ prefixes p.
Proof. intros [_ Hpre]%elem_of_prefixes. by apply prefix_snoc_not in Hpre. Qed.

Lemma sibling_outside (p : path) a b : a ≠ b → outside (p ++ [b]) (p ++ [a]).
Proof.
  intros Hab. split.
  - rewrite prefixes_snoc. intros [Hin|Heq%list_elem_of_singleton]%elem_of_app.
    + by apply snoc_not_in_prefixes in Hin.
    + by apply app_inv_head in Heq as [= ?].
  - intros x _. by apply not_prefix_sibling.
Qed.

(** *** The archive path *)

Lemma split_sep_no_sep (cs : list ascii) :
  Forall (λ c, is_sep c = false) cs → split_sep cs = [cs].
Proof.
  induction 1 as [|c cs Hc _ IH]; [done|]. cbn. by rewrite Hc, IH.
Qed.

Lemma take_segment_no_sep (cs : list ascii) :
  Forall (λ c, is_sep c = false) (take_segment cs).
Proof.
  induction cs as [|c cs IH]; cbn; [constructor|].
  destruct (is_sep c) eqn:Hc; by constructor.
Qed.

Lemma basename_no_separator s :
  Forall (λ c, is_sep c = false) (String.list_ascii_of_string (basename s)).
Proof.
  unfold basename. rewrite String.list_ascii_of_string_of_list_ascii.
  apply Forall_rev, take_segment_no_sep.
Qed.

(** A base name is one segment, so joining it is one step. *)
Lemma path_join_basename (dir : path) s :
  path_join dir (basename s) = path_step dir (basename s).
Proof.
  unfold path_join, segments.
  rewrite split_sep_no_sep by apply basename_no_separator. cbn.
  by rewrite String.string_of_list_ascii_of_string.
Qed.

Lemma path_step_plain (dir : path) name :
  plain name = true → path_step dir name = dir ++ [name].
Proof.
  unfold plain, path_step.
  intros [H1%negb_true_iff H2%negb_true_iff]%andb_true_iff. by rewrite H1, H2.
Qed.

Lemma path_step_cases (dir : path) name :
  path_step dir name = dir ∨ path_step dir name = parent dir
  ∨ path_step dir name = dir ++ [name].
Proof. unfold path_step. repeat case_bool_decide; auto. Qed.

Lemma PLATFORMS_plain key d :
  own_property PLATFORMS key = Some d → plain (basename (url d)) = true.
Proof.
  intros Hin%own_property_elem.
  assert (Hall : Forall (λ kd, plain (basename (url kd.2)) = true) PLATFORMS).
  { repeat constructor. }
  rewrite Forall_forall in Hall. by apply (Hall (key, d)).
Qed.

(** For the URLs of the table the archive lies in the resources directory
    under the base name of the URL. *)
Lemma archivePath_table key d :
  own_property PLATFORMS key = Some d →
  archivePath key d = resourcesDir key ++ [basename (url d)].
Proof.
  intros Hown. unfold archivePath.
  by rewrite path_join_basename, path_step_plain by by eapply PLATFORMS_plain.
Qed.

Lemma parent_resourcesDir key :
  parent (resourcesDir key) = project_root ++ ["resources"; "python"].
Proof. unfold parent, resourcesDir. by rewrite removelast_app. Qed.

Lemma archivePath_nonempty key d : archivePath key d ≠ [].
Proof.
  unfold archivePath. rewrite path_join_basename.
  destruct (path_step_cases (resourcesDir key) (basename (url d))) as [->|[->| ->]].
  - unfold resourcesDir. intros [_ ?]%app_eq_nil. done.
  - rewrite parent_resourcesDir. intros [_ ?]%app_eq_nil. done.
  - intros [_ ?]%app_eq_nil. done.
Qed.

(** Whatever the URL, the archive lies on the branch of the resources
    directory. *)
Lemma archivePath_near key d : near (resourcesDir key) (archivePath key d).
Proof.
  unfold archivePath. rewrite path_join_basename.
  destruct (path_step_cases (resourcesDir key) (basename (url d))) as [->|[->| ->]].
  - by left.
  - left. rewrite parent_resourcesDir. unfold resourcesDir.
    apply prefix_app. by exists [key].
  - right. by apply prefix_app_r.
Qed.

Lemma main_present fuel net argv2 platform arch key d st :
  targetPlatform argv2 platform arch = key →
  own_property PLATFORMS key = Some d →
  is_Some (node_at (fs st) (pythonDir key)) →
  main fuel net argv2 platform arch st
  = Some (0%Z, {| fs := fs st; trace := trace st ++ skip_lines key |}).
Proof.
  intros Hkey Hown Hthere. unfold main. rewrite Hkey.
  rewrite bind_console_log. unfold catch, downloadAndSetup.
  rewrite (PLATFORMS_get_own key d Hown). cbn [truthy negb get_url get_type].
  rewrite bind_ret. cbn [path_basename]. rewrite bind_ret.
  unfold bind at 1, fs_existsSync. cbn [logged fs trace].
  rewrite bool_decide_eq_true_2 by done.
  cbn. by rewrite <- app_assoc.
Qed.

Lemma main_absent fuel net argv2 platform arch key d st :
  targetPlatform argv2 platform arch = key →
  own_property PLATFORMS key = Some d →
  node_at (fs st) (pythonDir key) = None →
  existsb (is_file (fs st)) (prefixes (resourcesDir key)) = false →
  main fuel net argv2 platform arch st
  = '(o, st') ← catch (pipeline fuel net key d) on_failure (download_begins key d st);
    Some (exit_code o, st').
Proof.
  intros Hkey Hown Habsent Hmk. unfold main. rewrite Hkey.
  rewrite bind_console_log. unfold catch at 1, downloadAndSetup.
  rewrite (PLATFORMS_get_own key d Hown). cbn [truthy negb get_url get_type].
  rewrite bind_ret. cbn [path_basename]. rewrite bind_ret.
  unfold bind at 1, fs_existsSync. cbn [logged fs trace].
  rewrite bool_decide_eq_false_2 by (rewrite Habsent; by intros [? ?]).
  rewrite !bind_console_log. unfold bind at 1, fs_mkdir_recursive.
  cbn [logged fs trace]. rewrite Hmk.
  unfold catch, pipeline, download_begins, archivePath. cbn [to_string].
  by rewrite <- !app_assoc.
Qed.

(** An unsupported key, when neither the table nor [Object.prototype] has
    it: the diagnostic and exit code 1, nothing else. *)
Lemma unsupported_key_diagnosed fuel net argv2 platform arch key st :
  targetPlatform argv2 platform arch = key →
  PLATFORMS_get key = JUndefined →
  main fuel net argv2 platform arch st
  = Some (1%Z,
      {| fs := fs st;
         trace := trace st ++
           [ ConsoleLog ("Setting up Python for platform: " +:+ key);
             ConsoleError ("Unsupported platform: " +:+ key);
             ConsoleError "Supported platforms: darwin-arm64, darwin-x64, linux-x64, linux-arm64, win32-x64, win32-arm64" ] |}).
Proof.
  intros Hkey Hget. unfold main. rewrite Hkey.
  rewrite bind_console_log. unfold catch, downloadAndSetup. rewrite Hget.
  cbn [truthy negb]. unfold bind at 1. rewrite !bind_console_error.
  cbn. unfold logged. cbn [fs trace]. rewrite <- !app_assoc. reflexivity.
Qed.

(** C1 (as amended): for a key of the table whose extraction directory is
    there already, the run makes no request, leaves the filesystem as it
    is, says that Python already exists, and ends with exit code 0. *)
Theorem skip_when_python_present fuel net argv2 platform arch key d st :
  targetPlatform argv2 platform arch = key →
  own_property PLATFORMS key = Some d →
  is_Some (node_at (fs st) (pythonDir key)) →
  ∃ st', main fuel net argv2 platform arch st = Some (0%Z, st')
         ∧ fs st' = fs st
         ∧ requests (trace st') = requests (trace st)
         ∧ trace st' = trace st ++ skip_lines key.
Proof.
  intros Hkey Hown Hthere. eexists. split; [by eapply main_present|].
  cbn [fs trace]. split; [done|]. split; [|done].
  rewrite requests_app. cbn. by rewrite app_nil_r.
Qed.

(** C2 (the code at the failing input): [constructor] is no key of the
    table, yet [PLATFORMS[key]] finds the inherited [Object.prototype]
    member, the unsupported-platform diagnostic is not printed, and the
    run ends in the generic failure handler with the [TypeError] of
    [path.basename(undefined)]. *)
Theorem inherited_name_not_diagnosed fuel net platform arch st :
  own_property PLATFORMS "constructor" = None
  ∧ ("constructor" ∉ Object_keys PLATFORMS)
  ∧ main fuel net (Some "constructor") platform arch st
    = Some (1%Z,
        {| fs := fs st;
           trace := trace st ++
             [ ConsoleLog "Setting up Python for platform: constructor";
               ConsoleError ("❌ Setup failed: The " +:+ dquote +:+ "path" +:+ dquote
                             +:+ " argument must be of type string. Received undefined") ] |}).
Proof.
  split; [done|]. split.
  { intros Hin. by repeat (apply elem_of_cons in Hin as [?|Hin]; [done|]);
      apply elem_of_nil in Hin. }
  unfold main. cbn [targetPlatform]. rewrite decide_False by done.
  rewrite bind_console_log. unfold catch, downloadAndSetup.
  change (PLATFORMS_get "constructor") with (JInherited "constructor").
  cbn [truthy negb get_url get_type path_basename]. rewrite bind_ret.
  cbn. unfold logged. cbn [fs trace]. rewrite <- ?app_assoc. reflexivity.
Qed.

Lemma download_benign fuel net url dest st out st' :
  download fuel net url dest st = Some (out, st') → benign out.
Proof.
  revert url st. induction fuel as [|fuel IH]; intros url st; [done|].
  rewrite download_S. destruct (net url) as [msg|r].
  { intros [= <- <-]. by split. }
  destruct (is_redirect _); [apply IH|].
  destruct (negb _).
  { intros [= <- <-]. by split. }
  unfold bind at 1, create_write_stream.
  destruct (open_write _ _) as [e|t] eqn:Hopen.
  { intros [= <- <-]. unfold open_write in Hopen.
    destruct (node_at _ dest) as [[|?]|];
      [|destruct (node_at _ (parent dest)) as [[|?]|]..];
      injection Hopen as <- || discriminate; by split. }
  unfold bind at 1.
  edestruct receive_settles as (st1 & -> & _).
  destruct (aborted r); intros [= <- <-]; by split.
Qed.

Lemma extract_by_type_recognized key d :
  own_property PLATFORMS key = Some d →
  (type d = "tar.gz"
   ∧ extract_by_type (Some (type d)) = extractTarGz)
  ∨ (type d = "zip"
     ∧ extract_by_type (Some (type d)) = extractZip).
Proof.
  intros Hrec%PLATFORMS_recognized. unfold recognized in Hrec.
  apply andb_true_iff in Hrec as [[_ Htype]%andb_true_iff _].
  apply orb_true_iff in Htype as [Ht%bool_decide_eq_true|Ht%bool_decide_eq_true].
  - left. split; [done|]. unfold extract_by_type. by rewrite Ht.
  - right. split; [done|]. unfold extract_by_type. by rewrite Ht.
Qed.

Lemma pythonDir_nonempty key : pythonDir key ≠ [].
Proof. unfold pythonDir. intros [_ ?]%app_eq_nil. done. Qed.

Lemma extract_by_type_effect key d archive st out st' :
  own_property PLATFORMS key = Some d →
  extract_by_type (Some (type d)) archive (pythonDir key) st = Some (out, st') →
  benign out
  ∧ (∀ q, outside (pythonDir key) q → fs st' !! q = fs st !! q)
  ∧ (existsb (is_file (fs st)) (prefixes (pythonDir key)) = false →
     fs st' !! pythonDir key = Some Dir).
Proof.
  intros [[_ ->]|[_ ->]]%extract_by_type_recognized.
  - apply extractTarGz_effect, pythonDir_nonempty.
  - apply extractZip_effect, pythonDir_nonempty.
Qed.

Lemma fs_unlink_benign p st out st' :
  fs_unlink p st = Some (out, st') → benign out.
Proof.
  unfold fs_unlink. destruct (node_at (fs st) p) as [[|?]|];
    intros [= <- <-]; by split.
Qed.

Lemma pipeline_benign fuel net key d st out st' :
  own_property PLATFORMS key = Some d →
  pipeline fuel net key d st = Some (out, st') → benign out.
Proof.
  intros Hown. unfold pipeline.
  intros [(_ & st1 & _ & Hk)|[(e & Hdl%download_benign & ->)
                              |(c & Hdl%download_benign & ->)]]%bind_inv;
    [|done..].
  apply bind_inv in Hk
    as [(_ & st2 & _ & Hk)|[(e & (Hb & _)%extract_by_type_effect & ->)
                            |(c & (Hb & _)%extract_by_type_effect & ->)]];
    [|done..].
  apply bind_inv in Hk
    as [(_ & st3 & _ & Hk)|[(e & Hb%fs_unlink_benign & ->)
                            |(c & Hb%fs_unlink_benign & ->)]];
    [|done..].
  cbn in Hk. injection Hk as <- <-. by split.
Qed.

Lemma downloadAndSetup_supported fuel net key d st :
  own_property PLATFORMS key = Some d →
  downloadAndSetup fuel net key st
  = if bool_decide (is_Some (node_at (fs st) (pythonDir key))) then
      Some (Ret (), logged (ConsoleLog ("Python already exists at "
                                        +:+ path_text (pythonDir key))) st)
    else
      (console_log ("Downloading Python for " +:+ key +:+ "...") ;;
       console_log ("URL: " +:+ url d) ;;
       console_log ("Type: " +:+ type d) ;;
       fs_mkdir_recursive (resourcesDir key) ;;
       pipeline fuel net key d) st.
Proof.
  intros Hown. unfold downloadAndSetup.
  rewrite (PLATFORMS_get_own key d Hown). cbn [truthy negb get_url get_type].
  rewrite bind_ret. cbn [path_basename]. rewrite bind_ret.
  unfold bind at 1, fs_existsSync.
  by destruct (bool_decide _).
Qed.

(** C9: every descriptor of the table has a non-empty https URL and the
    archive type tar.gz or zip; so for a key of the table the dispatch
    goes to one of the two extractors and [downloadAndSetup] never raises
    the unsupported-archive-type error. *)
Theorem PLATFORMS_well_formed key d :
  own_property PLATFORMS key = Some d →
  (url d ≠ "" ∧ startsWith (url d) "https://" = true
   ∧ (type d = "tar.gz" ∨ type d = "zip"))
  ∧ (extract_by_type (Some (type d)) = extractTarGz
     ∨ extract_by_type (Some (type d)) = extractZip)
  ∧ ∀ fuel net st out st',
      downloadAndSetup fuel net key st = Some (out, st') →
      ∀ t, out ≠ Throw (UnsupportedArchiveType t).
Proof.
  intros Hown. split; [|split].
  - pose proof (PLATFORMS_recognized key d Hown) as Hrec. unfold recognized in Hrec.
    apply andb_true_iff in Hrec as [[[Hhttps Hne]%andb_true_iff Htype]%andb_true_iff _].
    apply negb_true_iff, bool_decide_eq_false in Hne.
    apply orb_true_iff in Htype as [Ht%bool_decide_eq_true|Ht%bool_decide_eq_true];
      auto.
  - destruct (extract_by_type_recognized key d Hown) as [[_ ?]|[_ ?]]; auto.
  - intros fuel net st out st'. rewrite (downloadAndSetup_supported _ _ _ d) by done.
    destruct (bool_decide _); [by intros [= <- <-]|].
    rewrite !bind_console_log. unfold bind at 1, fs_mkdir_recursive.
    destruct (existsb _ _); [by intros [= <- <-]|].
    intros [_ Hb]%pipeline_benign; done.
Qed.

(** *** After the download *)

Lemma basename_not_python key d :
  own_property PLATFORMS key = Some d → basename (url d) ≠ "python".
Proof.
  intros Hrec%PLATFORMS_recognized. unfold recognized in Hrec.
  apply andb_true_iff in Hrec as [_ Hne]. by apply negb_true_iff, bool_decide_eq_false in Hne.
Qed.

Lemma archive_outside key d :
  own_property PLATFORMS key = Some d → outside (pythonDir key) (archivePath key d).
Proof.
  intros Hown. rewrite (archivePath_table key d Hown).
  apply sibling_outside. by apply (basename_not_python key d).
Qed.

Lemma archive_not_pythonDir key d :
  own_property PLATFORMS key = Some d → pythonDir key ≠ archivePath key d.
Proof.
  intros Hown. rewrite (archivePath_table key d Hown).
  intros Heq. apply app_inv_head in Heq as [= Hname].
  by apply (basename_not_python key d Hown).
Qed.

Lemma archive_not_above key d q :
  own_property PLATFORMS key = Some d →
  q ∈ prefixes (resourcesDir key) → q ≠ archivePath key d.
Proof.
  intros Hown Hq ->. rewrite (archivePath_table key d Hown) in Hq.
  by apply snoc_not_in_prefixes in Hq.
Qed.

(** Once the download has resolved, the archive is a file, the resources
    directory is in place, and the extraction directory is still absent. *)
Lemma after_download fuel net key d st st1 :
  own_property PLATFORMS key = Some d →
  node_at (fs st) (pythonDir key) = None →
  download fuel net (Some (url d)) (archivePath key d) (download_begins key d st)
  = Some (Ret (), st1) →
  (∃ content, fs st1 !! archivePath key d = Some (File content))
  ∧ fs st1 !! pythonDir key = None
  ∧ existsb (is_file (fs st1)) (prefixes (pythonDir key)) = false.
Proof.
  intros Hown Habsent [Hframe Hfile]%download_fs.
  rewrite node_at_lookup in Habsent by apply pythonDir_nonempty.
  assert (Hpy : fs st1 !! pythonDir key = None).
  { rewrite Hframe.
    - cbn. rewrite make_dirs_lookup.
      destruct (decide (pythonDir key ∈ _)) as [Hin|]; [|done].
      by apply snoc_not_in_prefixes in Hin.
    - by apply archive_not_pythonDir. }
  split; [by apply Hfile, archivePath_nonempty|]. split; [done|].
  apply existsb_is_file_false. intros q Hq. unfold is_file.
  unfold pythonDir in Hq. rewrite prefixes_snoc in Hq.
  apply elem_of_app in Hq as [Hq| ->%list_elem_of_singleton].
  - assert (q ≠ []) by (by apply elem_of_prefixes in Hq as [? _]).
    assert (q ≠ archivePath key d) by by apply archive_not_above.
    rewrite node_at_lookup, Hframe by done.
    cbn. rewrite make_dirs_lookup. by destruct (decide (q ∈ _)).
  - fold (pythonDir key). by rewrite node_at_lookup, Hpy by apply pythonDir_nonempty.
Qed.

(** C5: once the archive has been downloaded, it is deleted exactly when
    the extraction succeeds: after a successful extraction the run unlinks
    it and ends with exit code 0; when the extraction raises an error, the
    error reaches the top-level handler (its message is printed, exit code
    1) and the archive file is still there. *)
Theorem archive_deleted_iff_extracted
    fuel net argv2 platform arch key d st st1 out st2 :
  targetPlatform argv2 platform arch = key →
  own_property PLATFORMS key = Some d →
  node_at (fs st) (pythonDir key) = None →
  existsb (is_file (fs st)) (prefixes (resourcesDir key)) = false →
  download fuel net (Some (url d)) (archivePath key d) (download_begins key d st)
  = Some (Ret (), st1) →
  extract_by_type (Some (type d)) (archivePath key d) (pythonDir key) st1
  = Some (out, st2) →
  ∃ code stF,
    main fuel net argv2 platform arch st = Some (code, stF)
    ∧ (fs stF !! archivePath key d = None ↔ out = Ret ())
    ∧ (out = Ret () → code = 0%Z ∧ fs stF = delete (archivePath key d) (fs st2))
    ∧ (∀ e, out = Throw e →
         code = 1%Z
         ∧ stF = logged (ConsoleError ("❌ Setup failed: " +:+ message e)) st2
         ∧ ∃ content, fs stF !! archivePath key d = Some (File content)).
Proof.
  intros Hkey Hown Habsent Hmk Hdl Hex.
  rewrite (main_absent _ _ _ _ _ key d) by done.
  destruct (after_download _ _ _ _ _ _ Hown Habsent Hdl) as ((content & Hfile) & _ & _).
  pose proof (extract_by_type_effect _ _ _ _ _ _ Hown Hex) as ([Hexit _] & Hframe & _).
  assert (Hfile2 : fs st2 !! archivePath key d = Some (File content)).
  { rewrite Hframe; [done|]. by apply archive_outside. }
  unfold catch, pipeline. unfold bind at 1. rewrite Hdl.
  unfold bind at 1. rewrite Hex.
  destruct out as [[]|e|c]; [| |by edestruct Hexit].
  - unfold bind at 1, fs_unlink.
    rewrite node_at_lookup, Hfile2 by apply archivePath_nonempty.
    rewrite !bind_console_log. cbn.
    eexists _, _. split; [done|]. cbn. rewrite lookup_delete_eq.
    split; [done|]. split; [done|]. by intros e [=].
  - cbn. eexists _, _. split; [done|]. cbn. rewrite Hfile2.
    split; [by split|]. split; [by intros [=]|].
    intros e' [= <-]. split; [done|]. split; [done|]. by exists content.
Qed.


(** *** Later runs *)

Lemma invocations_skip key d runs st :
  own_property PLATFORMS key = Some d →
  Forall (λ r, targetPlatform (inv_argv2 r) (inv_platform r) (inv_arch r) = key) runs →
  is_Some (node_at (fs st) (pythonDir key)) →
  ∃ st', invocations runs st = Some (replicate (length runs) 0%Z, st')
         ∧ fs st' = fs st
         ∧ requests (trace st') = requests (trace st).
Proof.
  intros Hown Hruns. revert st.
  induction Hruns as [|r runs Hr _ IH]; intros st Hthere.
  { by exists st. }
  cbn [invocations]. rewrite (main_present _ _ _ _ _ key d) by done. cbn.
  edestruct IH as (st' & -> & Hfs & Hreq); [done|]. cbn in Hfs, Hreq.
  exists st'. split; [done|]. split; [done|].
  rewrite Hreq, requests_app. cbn. by rewrite app_nil_r.
Qed.

(** C10: the check before the download looks only at whether the
    extraction directory exists, and both extractors create it before
    they unpack.  So when the extraction fails, the run ends with exit
    code 1 and leaves the directory behind, and every later run for the
    same key, whatever server it would meet, makes no request, changes
    nothing, and ends with exit code 0. *)
Theorem failed_extraction_blocks_later_runs
    fuel net argv2 platform arch key d st st1 e st2 :
  targetPlatform argv2 platform arch = key →
  own_property PLATFORMS key = Some d →
  node_at (fs st) (pythonDir key) = None →
  existsb (is_file (fs st)) (prefixes (resourcesDir key)) = false →
  download fuel net (Some (url d)) (archivePath key d) (download_begins key d st)
  = Some (Ret (), st1) →
  extract_by_type (Some (type d)) (archivePath key d) (pythonDir key) st1
  = Some (Throw e, st2) →
  (∀ archive destDir s out s',
     destDir ≠ [] →
     existsb (is_file (fs s)) (prefixes destDir) = false →
     extractTarGz archive destDir s = Some (out, s')
     ∨ extractZip archive destDir s = Some (out, s') →
     fs s' !! destDir = Some Dir)
  ∧ ∃ stF,
      main fuel net argv2 platform arch st = Some (1%Z, stF)
      ∧ fs stF = fs st2
      ∧ fs stF !! pythonDir key = Some Dir
      ∧ ∀ runs,
          Forall (λ r, targetPlatform (inv_argv2 r) (inv_platform r) (inv_arch r) = key)
                 runs →
          ∃ stL, invocations runs stF = Some (replicate (length runs) 0%Z, stL)
                 ∧ fs stL = fs stF
                 ∧ requests (trace stL) = requests (trace stF).
Proof.
  intros Hkey Hown Habsent Hmk Hdl Hex. split.
  { intros archive destDir s out s' Hne Hfiles [H|H].
    - by apply extractTarGz_effect in H as (_ & _ & ->).
    - by apply extractZip_effect in H as (_ & _ & ->). }
  destruct (after_download _ _ _ _ _ _ Hown Habsent Hdl) as (_ & _ & Hfiles).
  pose proof (extract_by_type_effect _ _ _ _ _ _ Hown Hex) as (_ & _ & Hdir).
  specialize (Hdir Hfiles).
  exists (logged (ConsoleError ("❌ Setup failed: " +:+ message e)) st2).
  split; [|split; [done|split; [done|]]].
  - rewrite (main_absent _ _ _ _ _ key d) by done.
    unfold catch, pipeline. unfold bind at 1. rewrite Hdl.
    unfold bind at 1. by rewrite Hex.
  - intros runs Hruns. apply (invocations_skip key d); [done..|].
    cbn. rewrite node_at_lookup by apply pythonDir_nonempty. by rewrite Hdir.
Qed.

(** *** Unpacking the tarball *)






End ScriptFacts.

(** ** Concrete runs *)

(** C1, as first stated, at an unsupported key whose directory exists: the
    run ends with exit code 1, not 0. *)
Lemma skip_needs_supported_key :
  is_Some (node_at (fs (Sample.installed "plan9-x64")) (pythonDir Sample.root "plan9-x64"))
  ∧ ∃ st', main Sample.root Sample.reader Sample.reader 1 Sample.looping
             (Some "plan9-x64") "linux" "x64" (Sample.installed "plan9-x64")
           = Some (1%Z, st').
Proof.
  split; [by eexists|].
  eexists. apply unsupported_key_diagnosed; reflexivity.
Qed.

Lemma skip_when_python_present_witness :
  ∃ st', main Sample.root Sample.reader Sample.reader 1 Sample.looping
           None "linux" "x64" (Sample.installed "linux-x64")
         = Some (0%Z, st')
         ∧ fs st' = fs (Sample.installed "linux-x64")
         ∧ requests (trace st') = requests (trace (Sample.installed "linux-x64"))
         ∧ trace st' = trace (Sample.installed "linux-x64")
                       ++ skip_lines Sample.root "linux-x64".
Proof.
  apply (skip_when_python_present Sample.root Sample.reader Sample.reader 1
           Sample.looping None "linux" "x64" "linux-x64" Sample.linux_x64).
  - reflexivity.
  - reflexivity.
  - by eexists.
Defined.

Lemma Demo_a_tgz_writable : writable (fs Sample.empty) ["a.tgz"].
Proof. by split. Qed.

Lemma download_follows_redirect_witness :
  download 1 Demo.serving (Some (url Sample.linux_x64)) ["a.tgz"] Sample.empty
  = download 0 Demo.serving (Some Sample.mirror) ["a.tgz"]
      (logged (HttpsGet (Some (url Sample.linux_x64))) Sample.empty)
  ∧ ∃ out st',
      download 2 Demo.serving (Some (url Sample.linux_x64)) ["a.tgz"] Sample.empty
      = Some (out, st')
      ∧ requests (trace st')
        = requests (trace Sample.empty)
          ++ [Some (url Sample.linux_x64); Some Sample.mirror]
      ∧ out = Ret ()
      ∧ fs st' = <[ ["a.tgz"] := File [x2a; x2b] ]> (fs Sample.empty).
Proof.
  destruct (download_follows_redirect Demo.serving (Some (url Sample.linux_x64))
              ["a.tgz"] Demo.release 0 Sample.empty eq_refl (or_intror eq_refl))
    as [Hsame Hfollow].
  split; [exact Hsame|].
  destruct (Hfollow eq_refl) as (out & st' & Hrun & Hreq & Hverdict).
  destruct (Hverdict Demo_a_tgz_writable) as [Hout Hfs].
  exists out, st'. split; [exact Hrun|]. split; [exact Hreq|]. by split.
Defined.

(** The same run, evaluated: two requests, the two chunks in the file,
    the closing line. *)
Example redirected_download_succeeds :
  download 2 Demo.serving (Some (url Sample.linux_x64)) ["a.tgz"] Sample.empty
  = Some (Ret (), Demo.fetched)
  ∧ fs Demo.fetched !! ["a.tgz"] = Some (File [x2a; x2b])
  ∧ trace Demo.fetched
    = [ HttpsGet (Some (url Sample.linux_x64)); HttpsGet (Some Sample.mirror);
        Progress 1 (Num 2); Progress 2 (Num 2);
        ConsoleLog (nl +:+ "Download completed!") ].
Proof. repeat split; by_evaluation. Qed.

Lemma download_rejects_status_witness :
  ∃ st', download 3 (Sample.redirecting None []) (Some "https://elsewhere.example/")
           ["app"; "a.tgz"] Sample.empty
         = Some (Throw (DownloadFailed 404), st')
         ∧ includes (message (DownloadFailed 404)) (pretty 404%N)
         ∧ fs st' = fs Sample.empty.
Proof.
  apply (download_rejects_status (Sample.redirecting None [])
           (Some "https://elsewhere.example/") ["app"; "a.tgz"] 0
           (Some "https://elsewhere.example/")
           {| statusCode := 404; location := None; content_length := None;
              body := []; aborted := None |}).
  - constructor.
  - reflexivity.
  - done.
  - done.
  - done.
  - lia.
Defined.

(** C6, as first stated, at a 200 response without [Content-Length]: the
    total is unknown, and a progress line is written for each of the two
    chunks all the same, with NaN for the total. *)
Lemma progress_without_content_length :
  ∃ st', download 1 (Sample.redirecting None [[x2a]; [x2b]]) (Some Sample.mirror)
           ["a.tgz"] Sample.empty
         = Some (Ret (), st')
         ∧ Progress 1 NaN ∈ trace st'
         ∧ Progress 2 NaN ∈ trace st'.
Proof.
  eexists. split; [vm_compute; reflexivity|].
  cbn [trace]. split; repeat constructor.
Qed.

Lemma download_progress_every_chunk_witness :
  ∃ st', download 1 (Sample.redirecting (Some "2") [[x2a]; [x2b]]) (Some Sample.mirror)
           ["a.tgz"] Sample.empty
         = Some (Ret (), st')
         ∧ trace st'
           = trace Sample.empty ++ [HttpsGet (Some Sample.mirror)]
             ++ map (λ n, Progress n (parseInt10 (Some "2")))
                    (running_totals 0 [[x2a]; [x2b]])
             ++ [ConsoleLog (nl +:+ "Download completed!")].
Proof.
  eexists. split; [vm_compute; reflexivity|].
  apply (download_progress_every_chunk
           (Sample.redirecting (Some "2") [[x2a]; [x2b]]) (Some Sample.mirror)
           ["a.tgz"]
           {| statusCode := 200; location := None; content_length := Some "2";
              body := [[x2a]; [x2b]]; aborted := None |}
           0 Sample.empty).
  - reflexivity.
  - reflexivity.
  - vm_compute; reflexivity.
Defined.





Lemma PLATFORMS_well_formed_witness :
  (url Sample.linux_x64 ≠ "" ∧ startsWith (url Sample.linux_x64) "https://" = true
   ∧ (type Sample.linux_x64 = "tar.gz" ∨ type Sample.linux_x64 = "zip"))
  ∧ (extract_by_type Sample.reader Sample.reader (Some (type Sample.linux_x64))
     = extractTarGz Sample.reader
     ∨ extract_by_type Sample.reader Sample.reader (Some (type Sample.linux_x64))
       = extractZip Sample.reader)
  ∧ ∀ fuel net st out st',
      downloadAndSetup Sample.root Sample.reader Sample.reader fuel net "linux-x64" st
      = Some (out, st') →
      ∀ t, out ≠ Throw (UnsupportedArchiveType t).
Proof.
  apply (PLATFORMS_well_formed Sample.root Sample.reader Sample.reader "linux-x64").
  reflexivity.
Defined.

Lemma archive_deleted_iff_extracted_witness :
  (∃ stF,
     main Sample.root Sample.reader Sample.reader 2
       (Sample.redirecting (Some "2") [[x2a]; [x2b]])
       (Some "linux-x64") "linux" "x64" Sample.empty
     = Some (0%Z, stF)
     ∧ fs stF !! archivePath Sample.root "linux-x64" Sample.linux_x64 = None)
  ∧ (∃ stF,
       main Sample.root Sample.reader Sample.reader 2
         (Sample.redirecting (Some "2") [[x2a]])
         (Some "linux-x64") "linux" "x64" Sample.empty
       = Some (1%Z, stF)
       ∧ stF = logged (ConsoleError "❌ Setup failed: unexpected end of file")
                 Sample.extracted_cut
       ∧ ∃ content,
           fs stF !! archivePath Sample.root "linux-x64" Sample.linux_x64
           = Some (File content)).
Proof.
  split.
  - destruct (archive_deleted_iff_extracted Sample.root Sample.reader Sample.reader 2
                (Sample.redirecting (Some "2") [[x2a]; [x2b]])
                (Some "linux-x64") "linux" "x64" "linux-x64" Sample.linux_x64
                Sample.empty Sample.downloaded_whole (Ret ()) Sample.extracted_whole
                ltac:(by_evaluation) ltac:(by_evaluation) ltac:(by_evaluation)
                ltac:(by_evaluation) ltac:(by_evaluation) ltac:(by_evaluation))
      as (code & stF & Hmain & Hgone & Hok & _).
    destruct (Hok eq_refl) as [Hcode _]. exists stF. split.
    + by rewrite <- Hcode.
    + by apply Hgone.
  - destruct (archive_deleted_iff_extracted Sample.root Sample.reader Sample.reader 2
                (Sample.redirecting (Some "2") [[x2a]])
                (Some "linux-x64") "linux" "x64" "linux-x64" Sample.linux_x64
                Sample.empty Sample.downloaded_cut
                (Throw (ArchiveError "unexpected end of file")) Sample.extracted_cut
                ltac:(by_evaluation) ltac:(by_evaluation) ltac:(by_evaluation)
                ltac:(by_evaluation) ltac:(by_evaluation) ltac:(by_evaluation))
      as (code & stF & Hmain & _ & _ & Hfailed).
    destruct (Hfailed _ eq_refl) as (Hcode & Hst & Hfile). exists stF. split.
    + by rewrite <- Hcode.
    + by split.
Defined.

(** The same run when the mirror cuts the archive short: the extraction
    fails after its second member, the archive stays, and the extraction
    directory is left half filled. *)
Example cut_archive_left_behind :
  Sample.run_extract Sample.downloaded_cut
  = Some (Throw (ArchiveError "unexpected end of file"), Sample.extracted_cut)
  ∧ fs Sample.extracted_cut !! archivePath Sample.root "linux-x64" Sample.linux_x64
    = Some (File [x2a])
  ∧ fs Sample.extracted_cut !! (pythonDir Sample.root "linux-x64" ++ ["bin"; "python3"])
    = Some (File [x01; x02])
  ∧ fs Sample.extracted_cut !! (pythonDir Sample.root "linux-x64" ++ ["lib"; "os.py"])
    = None.
Proof. repeat split; by_evaluation. Qed.

Lemma failed_extraction_blocks_later_runs_witness :
  ∃ stF,
    main Sample.root Sample.reader Sample.reader 2
      (Sample.redirecting (Some "2") [[x2a]])
      (Some "linux-x64") "linux" "x64" Sample.empty
    = Some (1%Z, stF)
    ∧ fs stF = fs Sample.extracted_cut
    ∧ fs stF !! pythonDir Sample.root "linux-x64" = Some Dir
    ∧ ∀ runs,
        Forall (λ r, targetPlatform (inv_argv2 r) (inv_platform r) (inv_arch r)
                     = "linux-x64") runs →
        ∃ stL, invocations Sample.root Sample.reader Sample.reader runs stF
               = Some (replicate (length runs) 0%Z, stL)
               ∧ fs stL = fs stF
               ∧ requests (trace stL) = requests (trace stF).
Proof.
  refine (proj2 (failed_extraction_blocks_later_runs Sample.root Sample.reader
                   Sample.reader 2 (Sample.redirecting (Some "2") [[x2a]])
                   (Some "linux-x64") "linux" "x64" "linux-x64" Sample.linux_x64
                   Sample.empty Sample.downloaded_cut
                   (ArchiveError "unexpected end of file") Sample.extracted_cut
                   _ _ _ _ _ _));
    by_evaluation.
Defined.

(** * Further properties *)

(** ** More about [download] *)

Lemma hops_along_redirects net url k u fuel :
  redirects net url k u →
  hops (k + fuel) net url
  = take k (hops (k + fuel) net url) ++ hops fuel net u
  ∧ length (take k (hops (k + fuel) net url)) = k.
Proof.
  induction 1 as [u|u r k u' Hnet Hstatus _ [IH1 IH2]]; [done|].
  cbn [Nat.add hops take]. rewrite Hnet, Hstatus. cbn [app length].
  by rewrite <- IH1, IH2.
Qed.

(** X4: The requests of a download are the hops of its redirect chain, one
    request each: a chain of [k] redirects that ends in anything but a 301
    or 302 costs [k + 1] requests, the first for the URL and the last for
    the end of the chain. *)
Theorem download_one_request_per_hop net url k u dest st fuel out st' :
  redirects net url k u →
  (∀ r, net u = GetResponse r → is_redirect (statusCode r) = false) →
  download fuel net url dest st = Some (out, st') →
  k < fuel
  ∧ ∃ targets,
      requests (trace st') = requests (trace st) ++ targets
      ∧ length targets = S k
      ∧ head targets = Some url
      ∧ last targets = Some u.
Proof.
  intros Hred Hend Hrun.
  assert (Hk : k < fuel).
  { destruct (decide (k < fuel)) as [|Hge]; [done|]. exfalso.
    clear Hend. revert fuel st Hrun Hge.
    induction Hred as [u|u r k u' Hnet Hstatus _ IH]; intros fuel st Hrun Hge.
    - destruct fuel; [done|lia].
    - destruct fuel as [|fuel]; [done|].
      rewrite download_S, Hnet, Hstatus in Hrun.
      apply IH in Hrun; [done|lia]. }
  split; [done|]. exists (hops fuel net url).
  split; [by eapply download_requests|].
  replace fuel with (k + (fuel - k)) by lia.
  destruct (hops_along_redirects net url k u (fuel - k) Hred) as [Heq Hlen].
  destruct (fuel - k) as [|n] eqn:Hn; [lia|].
  assert (Hlast : hops (S n) net u = [u]).
  { cbn [hops]. destruct (net u) as [|r] eqn:Hu; [done|].
    by rewrite (Hend r eq_refl). }
  rewrite Hlast in Heq. split; [|split].
  - rewrite Heq, length_app, Hlen. cbn. lia.
  - destruct k; by cbn.
  - rewrite Heq. by rewrite last_snoc.
Qed.

(** X1: A download that reaches a 200 response stores the body: the file at
    [dest] holds the chunks in order and nothing of what it held before,
    and no other path changes. *)
Theorem download_writes_body net url k u r dest st fuel :
  redirects net url k u →
  net u = GetResponse r →
  statusCode r = 200%N →
  aborted r = None →
  writable (fs st) dest →
  k < fuel →
  ∃ st', download fuel net url dest st = Some (Ret (), st')
         ∧ fs st' = <[dest := File (concat (body r))]> (fs st).
Proof.
  intros Hred Hnet Hstatus Hwhole Hw Hk.
  destruct (download_along_redirects net url k u dest st (fuel - k) Hred)
    as (st1 & Hfs & Heq).
  replace (k + (fuel - k)) with fuel in Heq by lia.
  destruct (fuel - k) as [|n] eqn:Hn; [lia|].
  rewrite <- Hfs in Hw.
  destruct (download_200 n net u dest r st1 Hnet Hstatus Hw) as (st' & Hrun & Hfs' & _).
  rewrite Hwhole in Hrun. exists st'. by rewrite Heq, Hrun, Hfs', Hfs.
Qed.

(** X2: When the body of the 200 response is cut short by an error, the
    download rejects with that error, and the chunks received until then
    stay in the file at [dest]: nothing removes the partial file. *)
Theorem download_cut_short_leaves_partial_file net url k u r msg dest st fuel :
  redirects net url k u →
  net u = GetResponse r →
  statusCode r = 200%N →
  aborted r = Some msg →
  writable (fs st) dest →
  k < fuel →
  ∃ st', download fuel net url dest st = Some (Throw (RequestError msg), st')
         ∧ fs st' = <[dest := File (concat (body r))]> (fs st).
Proof.
  intros Hred Hnet Hstatus Hcut Hw Hk.
  destruct (download_along_redirects net url k u dest st (fuel - k) Hred)
    as (st1 & Hfs & Heq).
  replace (k + (fuel - k)) with fuel in Heq by lia.
  destruct (fuel - k) as [|n] eqn:Hn; [lia|].
  rewrite <- Hfs in Hw.
  destruct (download_200 n net u dest r st1 Hnet Hstatus Hw) as (st' & Hrun & Hfs' & _).
  rewrite Hcut in Hrun. exists st'. by rewrite Heq, Hrun, Hfs', Hfs.
Qed.

(** X3: A request that fails (an error thrown by [https.get] or emitted by the
    request), at the URL or after any number of redirects, makes the
    download reject with that error; nothing is written. *)
Theorem download_request_error net url k u msg dest st fuel :
  redirects net url k u →
  net u = GetError msg →
  k < fuel →
  ∃ st', download fuel net url dest st = Some (Throw (RequestError msg), st')
         ∧ message (RequestError msg) = msg
         ∧ fs st' = fs st.
Proof.
  intros Hred Hnet Hk.
  destruct (download_along_redirects net url k u dest st (fuel - k) Hred)
    as (st1 & Hfs & Heq).
  replace (k + (fuel - k)) with fuel in Heq by lia.
  destruct (fuel - k) as [|n] eqn:Hn; [lia|].
  exists (logged (HttpsGet u) st1). by rewrite Heq, download_S, Hnet.
Qed.

Lemma running_totals_lookup d chunks i :
  i < length chunks →
  running_totals d chunks !! i
  = Some (d + N.of_nat (length (concat (take (S i) chunks))))%N.
Proof.
  revert d i. induction chunks as [|c rest IH]; intros d i Hi; cbn in Hi; [lia|].
  destruct i as [|i]; cbn [running_totals lookup list_lookup take concat].
  - cbn. by rewrite app_nil_r.
  - rewrite (IH _ i) by lia. f_equal. rewrite length_app. lia.
Qed.

(** X5: The progress lines of a successful download count cumulatively: the
    line written for chunk [i] carries the number of bytes of the chunks
    up to and including it, so the last line carries the size of the file
    that was written. *)
Theorem download_progress_is_cumulative net url dest r fuel st i :
  net url = GetResponse r →
  statusCode r = 200%N →
  aborted r = None →
  writable (fs st) dest →
  i < length (body r) →
  ∃ st', download (S fuel) net url dest st = Some (Ret (), st')
         ∧ trace st' !! (length (trace st) + 1 + i)
           = Some (Progress (N.of_nat (length (concat (take (S i) (body r)))))
                            (parseInt10 (content_length r)))
         ∧ (S i = length (body r) →
            ∃ content, fs st' !! dest = Some (File content)
                       ∧ length content = length (concat (take (S i) (body r)))).
Proof.
  intros Hnet Hstatus Hwhole Hw Hi.
  destruct (download_200 fuel net url dest r st Hnet Hstatus Hw)
    as (st' & Hrun & Hfs & Htr).
  rewrite Hwhole in Hrun, Htr. exists st'. split; [done|]. split.
  - rewrite Htr. rewrite lookup_app_r by lia.
    replace (length (trace st) + 1 + i - length (trace st)) with (S i) by lia.
    change ([HttpsGet url] ++ ?l) with (HttpsGet url :: l).
    rewrite lookup_cons_ne_0 by done. cbn [pred].
    rewrite lookup_app_l by (rewrite length_map, running_totals_length; lia).
    rewrite list_lookup_fmap, running_totals_lookup by done. cbn.
    by rewrite N.add_0_l.
  - intros Hlast. exists (concat (body r)). rewrite Hfs, lookup_insert_eq.
    split; [done|]. by rewrite Hlast, firstn_all.
Qed.

(** ** What every step of the script keeps *)

Lemma only_app ok tr1 tr2 : only ok tr1 → only ok tr2 → only ok (tr1 ++ tr2).
Proof. apply Forall_app_2. Qed.

Lemma only_logs_quiet tr : only is_log tr → quiet tr.
Proof. intros Hlog. eapply Forall_impl; [exact Hlog|]. by intros [| | |]. Qed.

Lemma only_logs_requests tr : only is_log tr → requests tr = [].
Proof.
  induction 1 as [|e tr He _ IH]; [done|]. by destruct e.
Qed.

Lemma tame_mild P {A} (m : M A) : tame P m → mild P m.
Proof.
  intros Hm st out st' Hrun. destruct (Hm st) as (o & s & Hs & (tr & Htr & Hlog) & Hfs).
  rewrite Hs in Hrun. injection Hrun as <- <-. split; [|done].
  exists tr. split; [done|]. by apply only_logs_quiet.
Qed.

Lemma no_events ok (tr : list event) : ∃ tr', tr = tr ++ tr' ∧ only ok tr'.
Proof. exists []. split; [by rewrite app_nil_r|constructor]. Qed.

Lemma quiet_app tr1 tr2 : quiet tr1 → quiet tr2 → quiet (tr1 ++ tr2).
Proof. apply only_app. Qed.

Lemma tame_bind P {A B} (m : M A) (k : A → M B) :
  tame P m → (∀ a, tame P (k a)) → tame P (bind m k).
Proof.
  intros Hm Hk st. unfold bind.
  destruct (Hm st) as (o & st1 & -> & (tr1 & Htr1 & Hq1) & Hfs1).
  destruct o as [a|e|c].
  - destruct (Hk a st1) as (o2 & st2 & -> & (tr2 & Htr2 & Hq2) & Hfs2).
    exists o2, st2. split; [done|]. split.
    + exists (tr1 ++ tr2). split; [by rewrite Htr2, Htr1, app_assoc|].
      by apply only_app.
    + intros q Hq. by rewrite Hfs2, Hfs1.
  - exists (Throw e), st1. split; [done|]. split; [exists tr1; by split|done].
  - exists (Exit c), st1. split; [done|]. split; [exists tr1; by split|done].
Qed.

Lemma mild_bind P {A B} (m : M A) (k : A → M B) :
  mild P m → (∀ a, mild P (k a)) → mild P (bind m k).
Proof.
  intros Hm Hk st out st'. unfold bind.
  destruct (m st) as [[o st1]|] eqn:Hrun; [|done].
  destruct (Hm _ _ _ Hrun) as ((tr1 & Htr1 & Hq1) & Hfs1).
  destruct o as [a|e|c]; [|intros [= <- <-]; split; [exists tr1; by split|done]..].
  intros Hrun2. destruct (Hk a _ _ _ Hrun2) as ((tr2 & Htr2 & Hq2) & Hfs2).
  split.
  - exists (tr1 ++ tr2). split; [by rewrite Htr2, Htr1, app_assoc|].
    by apply quiet_app.
  - intros q Hq. by rewrite Hfs2, Hfs1.
Qed.

Lemma tame_weaken (P Q : path → Prop) {A} (m : M A) :
  (∀ q, P q → Q q) → tame P m → tame Q m.
Proof.
  intros HPQ Hm st. destruct (Hm st) as (o & st1 & Hrun & Htr & Hfs).
  exists o, st1. split; [done|]. split; [done|]. intros q Hq. apply Hfs. auto.
Qed.

Lemma tame_pure P {A} (m : M A) :
  (∀ st, ∃ out, m st = Some (out, st)) → tame P m.
Proof.
  intros Hm st. destruct (Hm st) as [out Hout]. exists out, st.
  split; [done|]. split; [|done]. apply no_events.
Qed.

Lemma tame_ret P {A} (a : A) : tame P (ret a).
Proof. apply tame_pure. by eexists. Qed.

Lemma tame_throw P {A} e : tame P (throw (A := A) e).
Proof. apply tame_pure. by eexists. Qed.

Lemma tame_console_log P line : tame P (console_log line).
Proof.
  intros st. eexists _, _. split; [done|]. split; [|done].
  exists [ConsoleLog line]. split; [done|]. by repeat constructor.
Qed.

Lemma tame_fs_existsSync P p : tame P (fs_existsSync p).
Proof. apply tame_pure. by eexists. Qed.

Lemma tame_read_file P p : tame P (read_file p).
Proof.
  apply tame_pure. intros st. unfold read_file.
  destruct (node_at (fs st) p) as [[|?]|]; by eexists.
Qed.

Lemma tame_require_dir P p : tame P (require_dir p).
Proof.
  apply tame_pure. intros st. unfold require_dir.
  destruct (node_at (fs st) p) as [[|?]|]; by eexists.
Qed.

Lemma tame_fs_mkdir_recursive p : tame (λ q, q ∈ prefixes p) (fs_mkdir_recursive p).
Proof.
  intros st. unfold fs_mkdir_recursive. destruct (existsb _ _).
  - eexists _, _. split; [done|]. split; [|done]. apply no_events.
  - eexists _, _. split; [done|]. cbn. split.
    + apply no_events.
    + intros q Hq. rewrite make_dirs_lookup. by destruct (decide (q ∈ prefixes p)).
Qed.

Lemma tame_fs_unlink p : tame (λ q, q = p) (fs_unlink p).
Proof.
  intros st. unfold fs_unlink. destruct (node_at (fs st) p) as [[|?]|].
  - eexists _, _. split; [done|]. split; [|done]. apply no_events.
  - eexists _, _. split; [done|]. cbn. split.
    + apply no_events.
    + intros q Hq. by rewrite lookup_delete_ne.
  - eexists _, _. split; [done|]. split; [|done]. apply no_events.
Qed.

Lemma tame_tar_unpack_entry cwd strip e :
  tame (λ q, ∃ x, x ≠ [] ∧ q = cwd ++ x) (tar_unpack_entry cwd strip e).
Proof.
  intros st. destruct (tar_unpack_entry_unpacks cwd strip) as [_ Hstep].
  destruct (Hstep e st I) as (out & st' & Hrun & Htr & _ & _ & (Hframe & _) & _).
  exists out, st'. split; [done|]. split.
  - rewrite Htr. apply no_events.
  - intros q Hq. apply Hframe. intros x Hx ->. apply Hq. eauto.
Qed.

Lemma tame_zip_makeDir folder :
  tame (λ q, q ∈ prefixes folder) (zip_makeDir folder).
Proof.
  intros st. unfold zip_makeDir. destruct (existsb _ _).
  - eexists _, _. split; [done|]. split; [|done]. apply no_events.
  - eexists _, _. split; [done|]. cbn. split.
    + apply no_events.
    + intros q Hq. rewrite make_dirs_lookup. by destruct (decide (q ∈ prefixes folder)).
Qed.

Lemma prefixes_parent (target q : path) :
  q ∈ prefixes (parent target) → q ∈ prefixes target.
Proof.
  intros [Hq Hpre]%elem_of_prefixes. apply elem_of_prefixes.
  split; [done|]. by destruct (prefix_parent _ _ Hq Hpre).
Qed.

Lemma tame_zip_writeFileTo target content :
  tame (λ q, q ∈ prefixes target) (zip_writeFileTo target content).
Proof.
  intros st. destruct (decide (target = [])) as [->|Hne].
  { exists (Ret ()), st. split; [done|]. split; [apply no_events|done]. }
  rewrite zip_writeFileTo_eq by done.
  assert (Hput : ∀ (t : filesystem) q,
    (∀ q, q ∉ prefixes target → t !! q = fs st !! q) →
    q ∉ prefixes target → <[target := File content]> t !! q = fs st !! q).
  { intros t q Ht Hq. rewrite lookup_insert_ne; [by apply Ht|].
    intros <-. by apply Hq, prefixes_self. }
  destruct (fs st !! target) as [[|old]|].
  { eexists _, _. split; [done|]. split; [apply no_events|done]. }
  all: destruct (node_at (fs st) (parent target)) as [[|c]|].
  all: try destruct (existsb (is_file (fs st)) (prefixes (parent target))).
  all: eexists _, _; (split; [done|]); (split; [apply no_events|]); cbn [fs].
  all: try done.
  all: intros q Hq; apply Hput; [|done]; try done.
  all: intros q' Hq'; rewrite make_dirs_lookup, decide_False; [done|].
  all: intros Hin; by apply Hq', prefixes_parent.
Qed.

Lemma tame_zip_unpack_entry cwd e :
  tame (extraction_area cwd) (zip_unpack_entry cwd e).
Proof.
  assert (Harea : ∀ rest q, q ∈ prefixes (cwd ++ rest) → extraction_area cwd q).
  { intros rest q. rewrite prefixes_app.
    intros [Hq|(x & -> & [Hx _]%elem_of_prefixes)%list_elem_of_fmap]%elem_of_app.
    - by left.
    - right. by exists x. }
  unfold zip_unpack_entry. destruct (entry_body e) as [content|].
  - eapply tame_weaken; [|apply tame_zip_writeFileTo]. apply Harea.
  - eapply tame_weaken; [|apply tame_zip_makeDir]. apply Harea.
Qed.

Lemma tame_unpack_all P unpack_entry es :
  (∀ e, tame P (unpack_entry e)) → tame P (unpack_all unpack_entry es).
Proof.
  intros Hstep. induction es as [|e es IH]; cbn [unpack_all]; [apply tame_ret|].
  by apply tame_bind.
Qed.

Lemma tame_unpack P unpack_entry d :
  (∀ e, tame P (unpack_entry e)) → tame P (unpack unpack_entry d).
Proof.
  intros Hstep. unfold unpack. apply tame_bind; [by apply tame_unpack_all|].
  intros _. destruct (damage d); [apply tame_throw|apply tame_ret].
Qed.

(** [download] may not settle, but when it does it is quiet and writes
    nowhere but at [dest]. *)
Lemma mild_download fuel net url dest :
  mild (λ q, q = dest) (download fuel net url dest).
Proof.
  intros st out st' Hrun. split.
  - revert url st Hrun. induction fuel as [|fuel IH]; intros url st; [done|].
    rewrite download_S.
    assert (Hget : quiet [HttpsGet url]) by by repeat constructor.
    destruct (net url) as [msg|r].
    { intros [= <- <-]. exists [HttpsGet url]. by split. }
    destruct (is_redirect _).
    { intros (tr & -> & Hq)%IH. exists (HttpsGet url :: tr). cbn.
      split; [by rewrite <- app_assoc|]. by constructor. }
    destruct (negb _).
    { intros [= <- <-]. exists [HttpsGet url]. by split. }
    unfold bind at 1, create_write_stream.
    destruct (open_write _ _) as [e|t]; cbn [logged fs trace].
    { intros [= <- <-]. exists [HttpsGet url]. by split. }
    unfold bind at 1.
    edestruct receive_settles as (st1 & -> & Htr & _). cbn [trace] in Htr.
    assert (Hprog : ∀ total ns, quiet (map (λ n, Progress n total) ns)).
    { intros total ns. induction ns; by constructor. }
    destruct (aborted r); cbn; intros [= <- <-]; cbn [trace]; rewrite Htr.
    + eexists. rewrite <- app_assoc. split; [done|].
      apply quiet_app; [done|apply Hprog].
    + eexists. rewrite <- !app_assoc. split; [done|].
      apply quiet_app; [done|]. apply quiet_app; [apply Hprog|by repeat constructor].
  - intros q Hq. apply download_fs in Hrun as [Hframe _]. by apply Hframe.
Qed.

Lemma near_prefixes (p q : path) : q ∈ prefixes p → near p q.
Proof. intros [_ ?]%elem_of_prefixes. by left. Qed.

Lemma near_below (p x : path) : near p (p ++ x).
Proof. right. by apply prefix_app_r. Qed.

Lemma near_child_prefixes (p : path) c q : q ∈ prefixes (p ++ [c]) → near p q.
Proof.
  rewrite prefixes_snoc. intros [Hq| ->%list_elem_of_singleton]%elem_of_app.
  - by apply near_prefixes.
  - apply near_below.
Qed.

Lemma near_child_below (p : path) c x q : q = (p ++ [c]) ++ x → near p q.
Proof. intros ->. rewrite <- app_assoc. apply near_below. Qed.

Section ScriptEffects.

Variable project_root : path.
Variable read_targz : list byte → decoded.
Variable read_zip : list byte → decoded.

Local Abbreviation tar_extract := (tar_extract read_targz).
Local Abbreviation zip_extractAllTo := (zip_extractAllTo read_zip).
Local Abbreviation extractTarGz := (extractTarGz read_targz).
Local Abbreviation extractZip := (extractZip read_zip).
Local Abbreviation extract_by_type := (extract_by_type read_targz read_zip).
Local Abbreviation downloadAndSetup := (downloadAndSetup project_root read_targz read_zip).
Local Abbreviation main := (main project_root read_targz read_zip).
Local Abbreviation resourcesDir := (resourcesDir project_root).
Local Abbreviation pythonDir := (pythonDir project_root).
Local Abbreviation archivePath := (archivePath project_root).
Local Abbreviation download_begins := (download_begins project_root).
Local Abbreviation pipeline := (pipeline project_root read_targz read_zip).
Local Abbreviation invocations := (invocations project_root read_targz read_zip).

Lemma tame_extractTarGz tarPath destDir :
  tame (extraction_area destDir) (extractTarGz tarPath destDir).
Proof.
  unfold extractTarGz.
  apply tame_bind; [apply tame_console_log|]. intros _.
  apply tame_bind.
  { eapply tame_weaken; [|apply tame_fs_mkdir_recursive]. by left. }
  intros _. apply tame_bind; [|intros _; apply tame_console_log].
  unfold tar_extract.
  apply tame_bind; [apply tame_read_file|]. intros content.
  apply tame_bind; [apply tame_require_dir|]. intros _.
  apply tame_unpack. intros e.
  eapply tame_weaken; [|apply tame_tar_unpack_entry]. by right.
Qed.

Lemma tame_extractZip zipPath destDir :
  tame (extraction_area destDir) (extractZip zipPath destDir).
Proof.
  unfold extractZip.
  apply tame_bind; [apply tame_console_log|]. intros _.
  apply tame_bind.
  { eapply tame_weaken; [|apply tame_fs_mkdir_recursive]. by left. }
  intros _. apply tame_bind; [|intros _; apply tame_console_log].
  unfold zip_extractAllTo.
  apply tame_bind; [apply tame_read_file|]. intros content.
  apply tame_unpack. apply tame_zip_unpack_entry.
Qed.

Lemma tame_extract_by_type type archive destDir :
  tame (extraction_area destDir) (extract_by_type type archive destDir).
Proof.
  unfold extract_by_type.
  destruct (strict_eq_str type "tar.gz"); [apply tame_extractTarGz|].
  destruct (strict_eq_str type "zip"); [apply tame_extractZip|apply tame_throw].
Qed.

Lemma extraction_area_near key q :
  extraction_area (pythonDir key) q → near (resourcesDir key) q.
Proof.
  intros [Hq|(x & _ & Hq)].
  - by eapply near_child_prefixes.
  - by eapply near_child_below.
Qed.

(** What follows the download in [pipeline]. *)
Lemma tame_after_download key d :
  tame (near (resourcesDir key))
    (extract_by_type (Some (type d)) (archivePath key d) (pythonDir key) ;;
     fs_unlink (archivePath key d) ;;
     console_log ("Cleaned up " +:+ type d +:+ " file") ;;
     console_log (nl +:+ "✅ Python setup completed at: "
                  +:+ path_text (pythonDir key))).
Proof.
  apply tame_bind.
  { eapply tame_weaken; [|apply tame_extract_by_type]. apply extraction_area_near. }
  intros _. apply tame_bind.
  { eapply tame_weaken; [|apply tame_fs_unlink]. intros q ->.
    apply archivePath_near. }
  intros _. apply tame_bind; [apply tame_console_log|].
  intros _. apply tame_console_log.
Qed.

Lemma mild_pipeline fuel net key d :
  mild (near (resourcesDir key)) (pipeline fuel net key d).
Proof.
  unfold pipeline. apply mild_bind.
  - intros st out st' Hrun. apply mild_download in Hrun as [Htr Hfs].
    split; [done|]. intros q Hq. apply Hfs. intros ->. apply Hq, archivePath_near.
  - intros _. apply tame_mild, tame_after_download.
Qed.

(** The pipeline settles exactly when its download does. *)
Lemma pipeline_settles fuel net key d st :
  is_Some (pipeline fuel net key d st)
  ↔ is_Some (download fuel net (Some (url d)) (archivePath key d) st).
Proof.
  unfold pipeline, bind at 1.
  destruct (download fuel net (Some (url d)) (archivePath key d) st)
    as [[[[]|e|c] st1]|]; [|done..].
  destruct (tame_after_download key d st1) as (o & st2 & Hrun & _).
  rewrite Hrun. done.
Qed.

(** *** Every way a run can end *)

Lemma main_inherited fuel net argv2 platform arch key name st :
  targetPlatform argv2 platform arch = key →
  PLATFORMS_get key = JInherited name →
  main fuel net argv2 platform arch st
  = Some (1%Z,
      {| fs := fs st;
         trace := trace st ++
           [ ConsoleLog ("Setting up Python for platform: " +:+ key);
             ConsoleError ("❌ Setup failed: " +:+ message PathArgNotString) ] |}).
Proof.
  intros Hkey Hget. unfold main. rewrite Hkey.
  rewrite bind_console_log. unfold catch, downloadAndSetup. rewrite Hget.
  cbn [truthy negb get_url get_type path_basename]. rewrite bind_ret.
  cbn. unfold logged. cbn [fs trace]. by rewrite <- !app_assoc.
Qed.

Lemma main_mkdir_fails fuel net argv2 platform arch key d st :
  targetPlatform argv2 platform arch = key →
  own_property PLATFORMS key = Some d →
  node_at (fs st) (pythonDir key) = None →
  existsb (is_file (fs st)) (prefixes (resourcesDir key)) = true →
  ∃ e,
    main fuel net argv2 platform arch st
    = Some (1%Z,
        {| fs := fs st;
           trace := trace st ++
             [ ConsoleLog ("Setting up Python for platform: " +:+ key);
               ConsoleLog ("Downloading Python for " +:+ key +:+ "...");
               ConsoleLog ("URL: " +:+ url d);
               ConsoleLog ("Type: " +:+ type d);
               ConsoleError ("❌ Setup failed: " +:+ message e) ] |}).
Proof.
  intros Hkey Hown Habsent Hmk. unfold main. rewrite Hkey.
  rewrite bind_console_log. unfold catch at 1, downloadAndSetup.
  rewrite (PLATFORMS_get_own key d Hown). cbn [truthy negb get_url get_type].
  rewrite bind_ret. cbn [path_basename]. rewrite bind_ret.
  unfold bind at 1, fs_existsSync. cbn [logged fs trace].
  rewrite bool_decide_eq_false_2 by (rewrite Habsent; by intros [? ?]).
  rewrite !bind_console_log. unfold bind at 1, fs_mkdir_recursive.
  cbn [logged fs trace]. rewrite Hmk.
  exists (FsError (if is_file (fs st) (resourcesDir key) then "EEXIST" else "ENOTDIR")
            (resourcesDir key)).
  cbn. unfold logged. cbn [fs trace to_string].
  by rewrite <- !app_assoc.
Qed.

(** The four things [PLATFORMS[key]] can come to. *)
Lemma PLATFORMS_get_cases key :
  (own_property PLATFORMS key = None ∧ PLATFORMS_get key = JUndefined)
  ∨ (own_property PLATFORMS key = None ∧ PLATFORMS_get key = JInherited key)
  ∨ ∃ d, own_property PLATFORMS key = Some d ∧ PLATFORMS_get key = JConfig d.
Proof.
  unfold PLATFORMS_get. destruct (own_property PLATFORMS key) as [d|].
  - right. right. by exists d.
  - destruct (decide (key ∈ Object_prototype_names)); auto.
Qed.

Lemma pipeline_requests fuel net key d st out st' :
  pipeline fuel net key d st = Some (out, st') →
  requests (trace st') = requests (trace st) ++ hops fuel net (Some (url d)).
Proof.
  unfold pipeline, bind at 1.
  destruct (download fuel net (Some (url d)) (archivePath key d) st)
    as [[o st1]|] eqn:Hdl; [|done].
  apply download_requests in Hdl.
  destruct o as [[]|e|c]; [|by intros [= <- <-]..].
  destruct (tame_after_download key d st1) as (o & st2 & -> & (tr & Htr & Hlog) & _).
  intros [= <- <-]. by rewrite Htr, requests_app, (only_logs_requests tr), app_nil_r.
Qed.

(** How a run that ended looks from outside. *)
Lemma main_outcome fuel net argv2 platform arch st code stF :
  main fuel net argv2 platform arch st = Some (code, stF) →
  (∀ q, ¬ near (resourcesDir (targetPlatform argv2 platform arch)) q →
        fs stF !! q = fs st !! q)
  ∧ ∃ tr, trace stF = trace st ++ tr
          ∧ ((code = 0%Z ∧ quiet tr)
             ∨ (code = 1%Z ∧ ∃ tr0 line, tr = tr0 ++ [ConsoleError line]))
          ∧ (requests tr = []
             ∨ ∃ d, own_property PLATFORMS (targetPlatform argv2 platform arch) = Some d
                    ∧ requests tr = hops fuel net (Some (url d))).
Proof.
  set (key := targetPlatform argv2 platform arch).
  assert (Hkey : targetPlatform argv2 platform arch = key) by done.
  clearbody key.
  destruct (PLATFORMS_get_cases key) as [[_ Hget]|[[_ Hget]|(d & Hown & _)]].
  - rewrite (unsupported_key_diagnosed _ _ _ fuel net argv2 platform arch key st Hkey Hget).
    intros [= <- <-]. split; [done|]. eexists. split; [done|]. split; [|by left].
    right. split; [done|]. by eexists [_; _], _.
  - rewrite (main_inherited fuel net argv2 platform arch key key st Hkey Hget).
    intros [= <- <-]. split; [done|]. eexists. split; [done|]. split; [|by left].
    right. split; [done|]. by eexists [_], _.
  - destruct (node_at (fs st) (pythonDir key)) as [n|] eqn:Hdir.
    { rewrite (main_present _ _ _ fuel net argv2 platform arch key d st Hkey Hown)
        by (by rewrite Hdir).
      intros [= <- <-]. split; [done|]. eexists. split; [done|]. split; [|by left].
      left. split; [done|]. by repeat constructor. }
    destruct (existsb (is_file (fs st)) (prefixes (resourcesDir key))) eqn:Hmk.
    { destruct (main_mkdir_fails fuel net argv2 platform arch key d st)
        as [e ->]; [done..|].
      intros [= <- <-]. split; [done|]. eexists. split; [done|]. split; [|by left].
      right. split; [done|]. by eexists [_; _; _; _], _. }
    rewrite (main_absent _ _ _ fuel net argv2 platform arch key d st Hkey Hown Hdir Hmk).
    unfold catch.
    destruct (pipeline fuel net key d (download_begins key d st))
      as [[o st1]|] eqn:Hrun; [|done].
    pose proof (pipeline_benign _ _ _ _ _ _ _ _ _ _ Hown Hrun) as [Hexit _].
    pose proof (pipeline_requests _ _ _ _ _ _ _ Hrun) as Hreq.
    apply mild_pipeline in Hrun as ((tr & Htr & Hq) & Hfs).
    assert (Hfs1 : ∀ q, ¬ near (resourcesDir key) q → fs st1 !! q = fs st !! q).
    { intros q Hq'. rewrite Hfs by done. cbn. rewrite make_dirs_lookup.
      destruct (decide (q ∈ _)) as [Hin|]; [|done].
      by apply near_prefixes in Hin. }
    assert (Hreq_tr : requests tr = hops fuel net (Some (url d))).
    { rewrite Htr, requests_app in Hreq. by apply app_inv_head in Hreq. }
    cbn [download_begins trace] in Htr.
    destruct o as [[]|e|c]; [| |by edestruct Hexit].
    + intros [= <- <-]. split; [done|]. eexists. rewrite Htr, <- app_assoc.
      split; [done|]. split.
      * left. split; [done|]. apply quiet_app; [by repeat constructor|done].
      * right. exists d. split; [done|]. by rewrite requests_app.
    + cbn. intros [= <- <-]. split; [done|]. cbn [logged trace fs].
      eexists. rewrite Htr, <- !app_assoc. split; [done|]. split.
      * right. split; [done|]. eexists _, _. by rewrite !app_assoc.
      * right. exists d. split; [done|].
        by rewrite !requests_app, Hreq_tr, app_nil_r.
Qed.

(** *** Properties of a whole run *)

Lemma other_platform_not_near key key' x :
  key' ≠ key → ¬ near (resourcesDir key) (resourcesDir key' ++ x).
Proof.
  intros Hne. unfold resourcesDir.
  intros [Hpre|Hpre]; rewrite <- !app_assoc in Hpre;
    apply prefix_app_inv in Hpre; cbn in Hpre;
    do 2 apply prefix_cons_inv_2 in Hpre; by apply prefix_cons_inv_1 in Hpre.
Qed.

(** X12: A run changes the filesystem only on the branch of its own resources
    directory: at [resources/python/<key>], above it or below it.  The
    directory of any other platform key, and all that is in it, is left
    as it was. *)
Theorem main_leaves_other_platforms fuel net argv2 platform arch st code stF :
  main fuel net argv2 platform arch st = Some (code, stF) →
  (∀ q, ¬ near (resourcesDir (targetPlatform argv2 platform arch)) q →
        fs stF !! q = fs st !! q)
  ∧ (∀ key' x, key' ≠ targetPlatform argv2 platform arch →
               fs stF !! (resourcesDir key' ++ x) = fs st !! (resourcesDir key' ++ x)).
Proof.
  intros [Hfs _]%main_outcome. split; [done|].
  intros key' x Hne. by apply Hfs, other_platform_not_near.
Qed.

(** X10: The exit code of a run that ends is 0 or 1, and it tells whether
    anything went to standard error: with 0 nothing did, with 1 the last
    thing the run did was to print an error line. *)
Theorem exit_code_matches_stderr fuel net argv2 platform arch st code stF :
  main fuel net argv2 platform arch st = Some (code, stF) →
  ∃ tr, trace stF = trace st ++ tr
        ∧ ((code = 0%Z ∧ quiet tr)
           ∨ (code = 1%Z ∧ ∃ tr0 line, tr = tr0 ++ [ConsoleError line])).
Proof.
  intros (_ & tr & Htr & Hcode & _)%main_outcome. by exists tr.
Qed.

(** X11: The only requests a run makes are those of one download of the URL
    that the table gives for its key: that URL first, then the [Location]
    of each redirect.  A run for a key outside the table makes none, and
    neither does a run that finds the extraction directory in place. *)
Theorem main_requests_only_table_url fuel net argv2 platform arch st code stF :
  main fuel net argv2 platform arch st = Some (code, stF) →
  (requests (trace stF) = requests (trace st)
   ∨ ∃ d, own_property PLATFORMS (targetPlatform argv2 platform arch) = Some d
          ∧ requests (trace stF)
            = requests (trace st) ++ hops fuel net (Some (url d)))
  ∧ (own_property PLATFORMS (targetPlatform argv2 platform arch) = None →
     requests (trace stF) = requests (trace st))
  ∧ (is_Some (node_at (fs st) (pythonDir (targetPlatform argv2 platform arch))) →
     requests (trace stF) = requests (trace st)).
Proof.
  intros Hrun.
  assert (Hcases : requests (trace stF) = requests (trace st)
    ∨ ∃ d, own_property PLATFORMS (targetPlatform argv2 platform arch) = Some d
           ∧ requests (trace stF)
             = requests (trace st) ++ hops fuel net (Some (url d))).
  { destruct (main_outcome _ _ _ _ _ _ _ _ Hrun)
      as (_ & tr & -> & _ & [Hreq|(d & Hown & Hreq)]); rewrite requests_app, Hreq.
    - left. by rewrite app_nil_r.
    - right. by exists d. }
  split; [done|]. split.
  - intros Hnone. destruct Hcases as [?|(d & Hown & _)]; [done|congruence].
  - intros Hthere.
    destruct (own_property PLATFORMS (targetPlatform argv2 platform arch))
      as [d|] eqn:Hown.
    + rewrite (main_present _ _ _ fuel net argv2 platform arch _ d st eq_refl Hown
                 Hthere) in Hrun.
      injection Hrun as <- <-. cbn [trace]. rewrite requests_app. cbn.
      by rewrite app_nil_r.
    + destruct Hcases as [?|(d & Hown' & _)]; [done|congruence].
Qed.

(** X13: A run fails to end only inside [download]: for a key of the table
    whose directory is absent, once the resources directory is made, when
    the download of the table URL never settles. *)
Theorem main_hangs_only_in_download fuel net argv2 platform arch st :
  main fuel net argv2 platform arch st = None
  ↔ ∃ d, own_property PLATFORMS (targetPlatform argv2 platform arch) = Some d
         ∧ node_at (fs st) (pythonDir (targetPlatform argv2 platform arch)) = None
         ∧ existsb (is_file (fs st))
             (prefixes (resourcesDir (targetPlatform argv2 platform arch))) = false
         ∧ download fuel net (Some (url d))
             (archivePath (targetPlatform argv2 platform arch) d)
             (download_begins (targetPlatform argv2 platform arch) d st) = None.
Proof.
  set (key := targetPlatform argv2 platform arch).
  assert (Hkey : targetPlatform argv2 platform arch = key) by done.
  clearbody key.
  assert (Hpipe : ∀ d,
    own_property PLATFORMS key = Some d →
    node_at (fs st) (pythonDir key) = None →
    existsb (is_file (fs st)) (prefixes (resourcesDir key)) = false →
    main fuel net argv2 platform arch st = None
    ↔ download fuel net (Some (url d)) (archivePath key d) (download_begins key d st)
      = None).
  { intros d Hown Hdir Hmk.
    rewrite (main_absent _ _ _ fuel net argv2 platform arch key d st Hkey Hown Hdir Hmk).
    pose proof (pipeline_settles fuel net key d (download_begins key d st)) as Hiff.
    unfold catch.
    destruct (pipeline fuel net key d (download_begins key d st))
      as [[[[]|e|c] st1]|],
      (download fuel net (Some (url d)) (archivePath key d) (download_begins key d st))
      as [res|]; cbn; split; try done; intros _; exfalso;
      (by apply (is_Some_None (A := outcome () * state)), Hiff). }
  split.
  - intros Hnone.
    destruct (PLATFORMS_get_cases key) as [[_ Hget]|[[_ Hget]|(d & Hown & _)]].
    + by rewrite (unsupported_key_diagnosed _ _ _ fuel net argv2 platform arch key st
                    Hkey Hget) in Hnone.
    + by rewrite (main_inherited fuel net argv2 platform arch key key st Hkey Hget)
        in Hnone.
    + destruct (node_at (fs st) (pythonDir key)) as [n|] eqn:Hdir.
      { rewrite (main_present _ _ _ fuel net argv2 platform arch key d st Hkey Hown)
          in Hnone by (by rewrite Hdir). done. }
      destruct (existsb (is_file (fs st)) (prefixes (resourcesDir key))) eqn:Hmk.
      { destruct (main_mkdir_fails fuel net argv2 platform arch key d st)
          as [e He]; [done..|]. by rewrite He in Hnone. }
      exists d. repeat split; try done. by apply Hpipe.
  - intros (d & Hown & Hdir & Hmk & Hdl). by apply (Hpipe d).
Qed.

Lemma main_absent_requests fuel net argv2 platform arch key d st code stF :
  targetPlatform argv2 platform arch = key →
  own_property PLATFORMS key = Some d →
  node_at (fs st) (pythonDir key) = None →
  existsb (is_file (fs st)) (prefixes (resourcesDir key)) = false →
  main fuel net argv2 platform arch st = Some (code, stF) →
  ∃ targets,
    requests (trace stF) = requests (trace st) ++ Some (url d) :: targets.
Proof.
  intros Hkey Hown Hdir Hmk.
  rewrite (main_absent _ _ _ fuel net argv2 platform arch key d st Hkey Hown Hdir Hmk).
  unfold catch.
  destruct (pipeline fuel net key d (download_begins key d st))
    as [[o st1]|] eqn:Hrun; [|done].
  assert (Hfuel : fuel ≠ 0).
  { intros ->. by unfold pipeline, bind in Hrun. }
  apply pipeline_requests in Hrun.
  assert (Hbegin : requests (trace (download_begins key d st)) = requests (trace st)).
  { cbn. rewrite requests_app. cbn. by rewrite app_nil_r. }
  rewrite Hbegin in Hrun. destruct fuel as [|fuel]; [done|]. cbn [hops] in Hrun.
  destruct o as [[]|err|c]; cbn; intros [= <- <-]; cbn [logged trace];
    rewrite ?requests_snoc, ?app_nil_r, Hrun; by eexists.
Qed.

(** X6: A key that is neither in the table nor a name inherited from
    [Object.prototype] gets the diagnostic: the key, then the keys of the
    table in the order they are written, on standard error; exit code 1;
    no request and no change on disk. *)
Theorem unsupported_key_exits_1 fuel net argv2 platform arch key st :
  targetPlatform argv2 platform arch = key →
  own_property PLATFORMS key = None →
  key ∉ Object_prototype_names →
  ∃ stF,
    main fuel net argv2 platform arch st = Some (1%Z, stF)
    ∧ fs stF = fs st
    ∧ requests (trace stF) = requests (trace st)
    ∧ trace stF
      = trace st ++
        [ ConsoleLog ("Setting up Python for platform: " +:+ key);
          ConsoleError ("Unsupported platform: " +:+ key);
          ConsoleError ("Supported platforms: "
                        +:+ String.concat ", " (Object_keys PLATFORMS)) ].
Proof.
  intros Hkey Hown Hproto.
  assert (Hget : PLATFORMS_get key = JUndefined).
  { unfold PLATFORMS_get. rewrite Hown. by rewrite decide_False. }
  eexists. split; [by apply unsupported_key_diagnosed|]. cbn [fs trace].
  split; [done|]. split; [|done]. rewrite requests_app. cbn. by rewrite app_nil_r.
Qed.

(** X7: When the resources directory cannot be made, because a file stands at
    it or above it, the run ends with exit code 1 before any request, and
    the disk is as it was. *)
Theorem blocked_resources_dir_exits_1 fuel net argv2 platform arch key d st :
  targetPlatform argv2 platform arch = key →
  own_property PLATFORMS key = Some d →
  node_at (fs st) (pythonDir key) = None →
  existsb (is_file (fs st)) (prefixes (resourcesDir key)) = true →
  ∃ stF,
    main fuel net argv2 platform arch st = Some (1%Z, stF)
    ∧ fs stF = fs st
    ∧ requests (trace stF) = requests (trace st).
Proof.
  intros Hkey Hown Hdir Hmk.
  destruct (main_mkdir_fails fuel net argv2 platform arch key d st) as [e ->];
    [done..|].
  eexists. split; [done|]. cbn [fs trace]. split; [done|].
  rewrite requests_app. cbn. by rewrite app_nil_r.
Qed.

(** X8: After a download that failed, the extraction directory is still
    absent, so the next run for the key is not skipped: it prints the
    error, ends with exit code 1, and a later run asks for the table URL
    again. *)
Theorem failed_download_is_retried fuel net argv2 platform arch key d st e st1 :
  targetPlatform argv2 platform arch = key →
  own_property PLATFORMS key = Some d →
  node_at (fs st) (pythonDir key) = None →
  existsb (is_file (fs st)) (prefixes (resourcesDir key)) = false →
  download fuel net (Some (url d)) (archivePath key d) (download_begins key d st)
  = Some (Throw e, st1) →
  ∃ stF,
    main fuel net argv2 platform arch st = Some (1%Z, stF)
    ∧ stF = logged (ConsoleError ("❌ Setup failed: " +:+ message e)) st1
    ∧ node_at (fs stF) (pythonDir key) = None
    ∧ ∀ fuel' net' code stL,
        main fuel' net' argv2 platform arch stF = Some (code, stL) →
        ∃ targets,
          requests (trace stL) = requests (trace stF) ++ Some (url d) :: targets.
Proof.
  intros Hkey Hown Hdir Hmk Hdl.
  exists (logged (ConsoleError ("❌ Setup failed: " +:+ message e)) st1).
  split; [|split; [done|]].
  { rewrite (main_absent _ _ _ fuel net argv2 platform arch key d st Hkey Hown Hdir Hmk).
    unfold catch, pipeline. unfold bind at 1. by rewrite Hdl. }
  apply download_fs in Hdl as [Hframe _].
  rewrite node_at_lookup in Hdir by apply pythonDir_nonempty.
  assert (Hdir1 : fs st1 !! pythonDir key = None).
  { rewrite Hframe.
    - cbn. rewrite make_dirs_lookup.
      destruct (decide (pythonDir key ∈ _)) as [Hin|]; [|done].
      by apply snoc_not_in_prefixes in Hin.
    - by apply archive_not_pythonDir. }
  assert (Hmk1 : existsb (is_file (fs st1)) (prefixes (resourcesDir key)) = false).
  { apply existsb_is_file_false. intros q Hq. unfold is_file.
    assert (q ≠ []) by (by apply elem_of_prefixes in Hq as [? _]).
    assert (q ≠ archivePath key d) by by apply archive_not_above.
    rewrite node_at_lookup, Hframe by done.
    cbn. rewrite make_dirs_lookup. by destruct (decide (q ∈ _)). }
  cbn [logged fs]. split.
  { by rewrite node_at_lookup by apply pythonDir_nonempty. }
  intros fuel' net' code stL Hagain.
  eapply main_absent_requests in Hagain; [done..| |done].
  cbn [logged fs]. by rewrite node_at_lookup by apply pythonDir_nonempty.
Qed.

(** X9: A run that downloads and extracts ends with exit code 0, with the
    extraction directory in place and the archive gone; and from then on
    every run for the key is skipped: no request, no change, exit code 0. *)
Theorem successful_run_is_final fuel net argv2 platform arch key d st st1 st2 :
  targetPlatform argv2 platform arch = key →
  own_property PLATFORMS key = Some d →
  node_at (fs st) (pythonDir key) = None →
  existsb (is_file (fs st)) (prefixes (resourcesDir key)) = false →
  download fuel net (Some (url d)) (archivePath key d) (download_begins key d st)
  = Some (Ret (), st1) →
  extract_by_type (Some (type d)) (archivePath key d) (pythonDir key) st1
  = Some (Ret (), st2) →
  ∃ stF,
    main fuel net argv2 platform arch st = Some (0%Z, stF)
    ∧ fs stF = delete (archivePath key d) (fs st2)
    ∧ fs stF !! pythonDir key = Some Dir
    ∧ trace stF
      = trace st2 ++
        [ ConsoleLog ("Cleaned up " +:+ type d +:+ " file");
          ConsoleLog (nl +:+ "✅ Python setup completed at: "
                      +:+ path_text (pythonDir key)) ]
    ∧ ∀ runs,
        Forall (λ r, targetPlatform (inv_argv2 r) (inv_platform r) (inv_arch r) = key)
               runs →
        ∃ stL, invocations runs stF = Some (replicate (length runs) 0%Z, stL)
               ∧ fs stL = fs stF
               ∧ requests (trace stL) = requests (trace stF).
Proof.
  intros Hkey Hown Hdir Hmk Hdl Hex.
  destruct (after_download _ _ _ _ _ _ _ Hown Hdir Hdl)
    as ((content & Hfile) & _ & Hfiles).
  pose proof (extract_by_type_effect _ _ _ _ _ _ _ _ _ Hown Hex)
    as (_ & Hframe & Hmade).
  specialize (Hmade Hfiles).
  assert (Hfile2 : fs st2 !! archivePath key d = Some (File content)).
  { rewrite Hframe; [done|]. by apply archive_outside. }
  assert (Hne : pythonDir key ≠ archivePath key d).
  { by apply archive_not_pythonDir. }
  eexists. split.
  { rewrite (main_absent _ _ _ fuel net argv2 platform arch key d st Hkey Hown Hdir Hmk).
    unfold catch, pipeline. unfold bind at 1. rewrite Hdl.
    unfold bind at 1. rewrite Hex.
    unfold bind at 1, fs_unlink.
    rewrite node_at_lookup, Hfile2 by apply archivePath_nonempty.
    rewrite !bind_console_log. cbn. reflexivity. }
  cbn [fs trace]. split; [done|]. split.
  { by rewrite lookup_delete_ne. }
  split; [by rewrite <- app_assoc|].
  intros runs Hruns.
  apply (invocations_skip project_root read_targz read_zip key d); [done..|].
  cbn [fs]. rewrite node_at_lookup by apply pythonDir_nonempty.
  by rewrite lookup_delete_ne, Hmade.
Qed.

(** *** Unpacking the zip *)





(** X15: Whatever the archive type and the archive, the extraction settles,
    prints nothing but [console.log] lines, and changes the filesystem
    nowhere but at the destination directory, the directories above it,
    and below it. *)
Theorem extraction_stays_in_destination type archive destDir st :
  ∃ out st',
    extract_by_type type archive destDir st = Some (out, st')
    ∧ (∃ tr, trace st' = trace st ++ tr ∧ only is_log tr)
    ∧ (∀ q, q ∉ prefixes destDir → (∀ x, x ≠ [] → q ≠ destDir ++ x) →
            fs st' !! q = fs st !! q).
Proof.
  destruct (tame_extract_by_type type archive destDir st)
    as (out & st' & Hrun & Htr & Hfs).
  exists out, st'. split; [done|]. split; [done|].
  intros q Hq1 Hq2. apply Hfs. intros [Hin|(x & Hx & ->)]; [done|].
  by apply (Hq2 x).
Qed.

End ScriptEffects.

(** ** The table and the archive name *)

(** X16: [Object.keys] and the property read agree: a key is listed exactly
    when the table has an entry of its own for it; for [PLATFORMS], the
    keys named in the diagnostic are exactly those whose lookup gives a
    descriptor. *)
Theorem Object_keys_lists_own_entries :
  (∀ tbl key, key ∈ Object_keys tbl ↔ is_Some (own_property tbl key))
  ∧ (∀ key, key ∈ Object_keys PLATFORMS ↔ ∃ d, PLATFORMS_get key = JConfig d).
Proof.
  assert (Hkeys : ∀ tbl key, key ∈ Object_keys tbl ↔ is_Some (own_property tbl key)).
  { intros tbl key. unfold Object_keys.
    induction tbl as [|[k d] tbl IH]; cbn.
    - split; [by intros ?%elem_of_nil|by intros [? ?]].
    - rewrite elem_of_cons, IH. destruct (decide (k = key)) as [->|Hne].
      + split; [by eexists|by left].
      + split; [by intros [?|?]|by right]. }
  split; [done|]. intros key. rewrite Hkeys. unfold PLATFORMS_get.
  destruct (own_property PLATFORMS key) as [d|].
  - split; [by exists d|by eexists].
  - split; [by intros [? ?]|]. intros [d Hd].
    by destruct (decide (key ∈ Object_prototype_names)).
Qed.

Lemma list_ascii_of_string_app (s t : string) :
  String.list_ascii_of_string (s +:+ t)
  = String.list_ascii_of_string s ++ String.list_ascii_of_string t.
Proof.
  induction s as [|c s IH]; [done|].
  change (String c s +:+ t) with (String c (s +:+ t)). cbn. by rewrite IH.
Qed.

Lemma drop_seps_no_sep (cs : list ascii) :
  match cs with c :: _ => is_sep c = false | [] => True end → drop_seps cs = cs.
Proof. destruct cs as [|c cs]; [done|]. cbn. by intros ->. Qed.

Lemma take_segment_app (l rest : list ascii) :
  Forall (λ c, is_sep c = false) l →
  take_segment (l ++ "/"%char :: rest) = l.
Proof.
  induction 1 as [|c l Hc _ IH]; [done|]. cbn. by rewrite Hc, IH.
Qed.

Lemma basename_of_dir_name dir name :
  name ≠ "" →
  Forall (λ c, is_sep c = false) (String.list_ascii_of_string name) →
  basename (dir +:+ "/" +:+ name) = name.
Proof.
  intros Hne Hname. unfold basename.
  rewrite !list_ascii_of_string_app, !rev_app_distr.
  cbn [String.list_ascii_of_string rev app].
  rewrite <- app_assoc. cbn [app].
  assert (Hrev : Forall (λ c, is_sep c = false) (rev (String.list_ascii_of_string name))).
  { by apply Forall_rev. }
  rewrite drop_seps_no_sep.
  - rewrite take_segment_app by done.
    by rewrite rev_involutive, String.string_of_list_ascii_of_string.
  - destruct (rev (String.list_ascii_of_string name)) as [|c cs] eqn:Hcs.
    + apply (f_equal (@rev ascii)) in Hcs. rewrite rev_involutive in Hcs.
      destruct name; [done|discriminate].
    + cbn. by inversion Hrev.
Qed.

(** X17: The archive is stored in the resources directory of the key under the
    last segment of the URL: for a URL [dir/name] whose [name] is free of
    separators and is not empty, [.] or [..], [path.basename] gives
    [name] and the archive path is [resources/python/<key>/name].  Every
    URL of the table is of this shape, with a name other than [python], so
    the archive is a sibling of the extraction directory. *)
Theorem archive_named_after_last_url_segment project_root key d dir name :
  url d = dir +:+ "/" +:+ name →
  Forall (λ c, is_sep c = false) (String.list_ascii_of_string name) →
  plain name = true →
  basename (url d) = name
  ∧ archivePath project_root key d = resourcesDir project_root key ++ [name]
  ∧ ∀ key' d',
      own_property PLATFORMS key' = Some d' →
      ∃ name',
        archivePath project_root key' d' = resourcesDir project_root key' ++ [name']
        ∧ name' ≠ "python"
        ∧ archivePath project_root key' d' ≠ pythonDir project_root key'.
Proof.
  intros Hurl Hname Hplain.
  assert (Hbase : basename (url d) = name).
  { rewrite Hurl. apply basename_of_dir_name; [|done]. by intros ->. }
  split; [done|]. split.
  - unfold archivePath. by rewrite path_join_basename, Hbase, path_step_plain.
  - intros key' d' Hown. exists (basename (url d')).
    split; [by apply archivePath_table|].
    split; [by apply (basename_not_python key' d')|].
    intros Heq. by apply (archive_not_pythonDir project_root key' d').
Qed.

(** ** More concrete runs *)

Lemma Demo_release_redirects :
  redirects Demo.serving (Some (url Sample.linux_x64)) 1 (Some Sample.mirror).
Proof. by apply (redirects_step _ _ Demo.release); [| |constructor]. Qed.

Lemma Demo_cutting_redirects :
  redirects Demo.cutting (Some (url Sample.linux_x64)) 1 (Some Sample.mirror).
Proof. by apply (redirects_step _ _ Demo.release); [| |constructor]. Qed.


Lemma download_one_request_per_hop_witness :
  1 < 2
  ∧ ∃ targets,
      requests (trace Demo.fetched) = requests (trace Sample.empty) ++ targets
      ∧ length targets = 2
      ∧ head targets = Some (Some (url Sample.linux_x64))
      ∧ last targets = Some (Some Sample.mirror).
Proof.
  apply (download_one_request_per_hop Demo.serving (Some (url Sample.linux_x64)) 1
           (Some Sample.mirror) ["a.tgz"] Sample.empty 2 (Ret ()) Demo.fetched).
  - exact Demo_release_redirects.
  - by intros r [= <-].
  - by_evaluation.
Defined.

Lemma download_writes_body_witness :
  ∃ st', download 2 Demo.serving (Some (url Sample.linux_x64)) ["a.tgz"] Sample.empty
         = Some (Ret (), st')
         ∧ fs st' = <[ ["a.tgz"] := File (concat (body Demo.payload)) ]> (fs Sample.empty).
Proof.
  apply (download_writes_body Demo.serving (Some (url Sample.linux_x64)) 1
           (Some Sample.mirror) Demo.payload).
  - exact Demo_release_redirects.
  - reflexivity.
  - reflexivity.
  - reflexivity.
  - exact Demo_a_tgz_writable.
  - lia.
Defined.

Lemma download_cut_short_leaves_partial_file_witness :
  ∃ st', download 2 Demo.cutting (Some (url Sample.linux_x64)) ["a.tgz"] Sample.empty
         = Some (Throw (RequestError "aborted"), st')
         ∧ fs st' = <[ ["a.tgz"] := File (concat [[x2a]]) ]> (fs Sample.empty).
Proof.
  apply (download_cut_short_leaves_partial_file Demo.cutting
           (Some (url Sample.linux_x64)) 1 (Some Sample.mirror)
           {| statusCode := 200; location := None; content_length := Some "2";
              body := [[x2a]]; aborted := Some "aborted" |}).
  - exact Demo_cutting_redirects.
  - reflexivity.
  - reflexivity.
  - reflexivity.
  - exact Demo_a_tgz_writable.
  - lia.
Defined.

Lemma download_request_error_witness :
  ∃ st', download 1 Demo.unreachable (Some (url Sample.linux_x64)) ["a.tgz"]
           Sample.empty
         = Some (Throw (RequestError "getaddrinfo ENOTFOUND"), st')
         ∧ message (RequestError "getaddrinfo ENOTFOUND") = "getaddrinfo ENOTFOUND"
         ∧ fs st' = fs Sample.empty.
Proof.
  apply (download_request_error Demo.unreachable (Some (url Sample.linux_x64)) 0
           (Some (url Sample.linux_x64))).
  - constructor.
  - reflexivity.
  - lia.
Defined.

Lemma download_progress_is_cumulative_witness :
  ∃ st', download 1 Demo.serving (Some Sample.mirror) ["a.tgz"] Sample.empty
         = Some (Ret (), st')
         ∧ trace st' !! (length (trace Sample.empty) + 1 + 1)
           = Some (Progress (N.of_nat (length (concat (take 2 (body Demo.payload)))))
                            (parseInt10 (content_length Demo.payload)))
         ∧ (2 = length (body Demo.payload) →
            ∃ content, fs st' !! ["a.tgz"] = Some (File content)
                       ∧ length content
                         = length (concat (take 2 (body Demo.payload)))).
Proof.
  apply (download_progress_is_cumulative Demo.serving (Some Sample.mirror) ["a.tgz"]
           Demo.payload 0 Sample.empty 1).
  - reflexivity.
  - reflexivity.
  - reflexivity.
  - exact Demo_a_tgz_writable.
  - cbn. lia.
Defined.

Lemma main_leaves_other_platforms_witness :
  (∀ q, ¬ near (resourcesDir Sample.root (targetPlatform (Some "linux-x64") "linux" "x64")) q →
        fs Demo.finished !! q = fs Sample.empty !! q)
  ∧ (∀ key' x, key' ≠ targetPlatform (Some "linux-x64") "linux" "x64" →
               fs Demo.finished !! (resourcesDir Sample.root key' ++ x)
               = fs Sample.empty !! (resourcesDir Sample.root key' ++ x)).
Proof.
  apply (main_leaves_other_platforms Sample.root Sample.reader Sample.reader 2
           Demo.serving (Some "linux-x64") "linux" "x64" Sample.empty 0%Z).
  by_evaluation.
Defined.

Lemma exit_code_matches_stderr_witness :
  ∃ tr, trace Demo.finished = trace Sample.empty ++ tr
        ∧ ((0%Z = 0%Z ∧ quiet tr)
           ∨ (0%Z = 1%Z ∧ ∃ tr0 line, tr = tr0 ++ [ConsoleError line])).
Proof.
  apply (exit_code_matches_stderr Sample.root Sample.reader Sample.reader 2
           Demo.serving (Some "linux-x64") "linux" "x64").
  by_evaluation.
Defined.

Lemma main_requests_only_table_url_witness :
  (requests (trace Demo.finished) = requests (trace Sample.empty)
   ∨ ∃ d, own_property PLATFORMS (targetPlatform (Some "linux-x64") "linux" "x64")
          = Some d
          ∧ requests (trace Demo.finished)
            = requests (trace Sample.empty) ++ hops 2 Demo.serving (Some (url d)))
  ∧ (own_property PLATFORMS (targetPlatform (Some "linux-x64") "linux" "x64") = None →
     requests (trace Demo.finished) = requests (trace Sample.empty))
  ∧ (is_Some (node_at (fs Sample.empty)
                (pythonDir Sample.root (targetPlatform (Some "linux-x64") "linux" "x64"))) →
     requests (trace Demo.finished) = requests (trace Sample.empty)).
Proof.
  apply (main_requests_only_table_url Sample.root Sample.reader Sample.reader 2
           Demo.serving (Some "linux-x64") "linux" "x64" Sample.empty 0%Z).
  by_evaluation.
Defined.

Lemma main_hangs_only_in_download_witness :
  main Sample.root Sample.reader Sample.reader 5 Sample.looping
    (Some "linux-x64") "linux" "x64" Sample.empty
  = None.
Proof.
  apply (main_hangs_only_in_download Sample.root Sample.reader Sample.reader).
  exists Sample.linux_x64. repeat split; by_evaluation.
Defined.

Lemma unsupported_key_exits_1_witness :
  ∃ stF,
    main Sample.root Sample.reader Sample.reader 1 Demo.serving
      (Some "plan9-x64") "linux" "x64" Sample.empty
    = Some (1%Z, stF)
    ∧ fs stF = fs Sample.empty
    ∧ requests (trace stF) = requests (trace Sample.empty)
    ∧ trace stF
      = trace Sample.empty ++
        [ ConsoleLog ("Setting up Python for platform: " +:+ "plan9-x64");
          ConsoleError ("Unsupported platform: " +:+ "plan9-x64");
          ConsoleError ("Supported platforms: "
                        +:+ String.concat ", " (Object_keys PLATFORMS)) ].
Proof.
  apply (unsupported_key_exits_1 Sample.root Sample.reader Sample.reader 1
           Demo.serving (Some "plan9-x64") "linux" "x64" "plan9-x64").
  - reflexivity.
  - reflexivity.
  - intros Hin. repeat (apply elem_of_cons in Hin as [?|Hin]; [done|]).
    by apply elem_of_nil in Hin.
Defined.

Lemma blocked_resources_dir_exits_1_witness :
  ∃ stF,
    main Sample.root Sample.reader Sample.reader 2 Demo.serving
      (Some "linux-x64") "linux" "x64" Demo.blocked
    = Some (1%Z, stF)
    ∧ fs stF = fs Demo.blocked
    ∧ requests (trace stF) = requests (trace Demo.blocked).
Proof.
  apply (blocked_resources_dir_exits_1 Sample.root Sample.reader Sample.reader 2
           Demo.serving (Some "linux-x64") "linux" "x64" "linux-x64"
           Sample.linux_x64);
    by_evaluation.
Defined.

Lemma failed_download_is_retried_witness :
  ∃ stF,
    main Sample.root Sample.reader Sample.reader 2 Demo.unreachable
      (Some "linux-x64") "linux" "x64" Sample.empty
    = Some (1%Z, stF)
    ∧ stF = logged (ConsoleError
                      ("❌ Setup failed: "
                       +:+ message (RequestError "getaddrinfo ENOTFOUND")))
              Demo.refused
    ∧ node_at (fs stF) (pythonDir Sample.root "linux-x64") = None
    ∧ ∀ fuel' net' code stL,
        main Sample.root Sample.reader Sample.reader fuel' net'
          (Some "linux-x64") "linux" "x64" stF
        = Some (code, stL) →
        ∃ targets,
          requests (trace stL)
          = requests (trace stF) ++ Some (url Sample.linux_x64) :: targets.
Proof.
  apply (failed_download_is_retried Sample.root Sample.reader Sample.reader 2
           Demo.unreachable (Some "linux-x64") "linux" "x64" "linux-x64"
           Sample.linux_x64 Sample.empty
           (RequestError "getaddrinfo ENOTFOUND") Demo.refused);
    by_evaluation.
Defined.

Lemma successful_run_is_final_witness :
  ∃ stF,
    main Sample.root Sample.reader Sample.reader 2
      (Sample.redirecting (Some "2") [[x2a]; [x2b]])
      (Some "linux-x64") "linux" "x64" Sample.empty
    = Some (0%Z, stF)
    ∧ fs stF = delete (archivePath Sample.root "linux-x64" Sample.linux_x64)
                 (fs Sample.extracted_whole)
    ∧ fs stF !! pythonDir Sample.root "linux-x64" = Some Dir
    ∧ trace stF
      = trace Sample.extracted_whole ++
        [ ConsoleLog ("Cleaned up " +:+ type Sample.linux_x64 +:+ " file");
          ConsoleLog (nl +:+ "✅ Python setup completed at: "
                      +:+ path_text (pythonDir Sample.root "linux-x64")) ]
    ∧ ∀ runs,
        Forall (λ r, targetPlatform (inv_argv2 r) (inv_platform r) (inv_arch r)
                     = "linux-x64") runs →
        ∃ stL, invocations Sample.root Sample.reader Sample.reader runs stF
               = Some (replicate (length runs) 0%Z, stL)
               ∧ fs stL = fs stF
               ∧ requests (trace stL) = requests (trace stF).
Proof.
  apply (successful_run_is_final Sample.root Sample.reader Sample.reader 2
           (Sample.redirecting (Some "2") [[x2a]; [x2b]])
           (Some "linux-x64") "linux" "x64" "linux-x64" Sample.linux_x64
           Sample.empty Sample.downloaded_whole Sample.extracted_whole);
    by_evaluation.
Defined.



Lemma archive_named_after_last_url_segment_witness :
  basename (url Sample.linux_x64)
  = "cpython-3.11.9+20240726-x86_64-unknown-linux-gnu-install_only.tar.gz"
  ∧ archivePath Sample.root "linux-x64" Sample.linux_x64
    = resourcesDir Sample.root "linux-x64"
      ++ ["cpython-3.11.9+20240726-x86_64-unknown-linux-gnu-install_only.tar.gz"]
  ∧ ∀ key' d',
      own_property PLATFORMS key' = Some d' →
      ∃ name',
        archivePath Sample.root key' d' = resourcesDir Sample.root key' ++ [name']
        ∧ name' ≠ "python"
        ∧ archivePath Sample.root key' d' ≠ pythonDir Sample.root key'.
Proof.
  apply (archive_named_after_last_url_segment Sample.root "linux-x64" Sample.linux_x64
           "https://github.com/indygreg/python-build-standalone/releases/download/20240726").
  - reflexivity.
  - by repeat constructor.
  - reflexivity.
Defined.
